(** * Zazu canvas: edit history and layered composition

    A shallow embedding of the state handled by [src/App.tsx] (the [App]
    component: version history, asset overlays, export to a flat canvas) and
    by the [AssetOverlay] component (pointer driven drag and resize), with
    the properties of the history manager and of the composition engine
    proved over it.

    React state is a record; every handler is a function from the state of
    the render it was created in to the next state.  The three remote
    handlers suspend at an [await]: they are split into the part before the
    suspension and the part that runs when the promise settles, which still
    sees the values captured before the suspension.

    JavaScript numbers are taken as exact rationals ([Q]); the history
    cursor and the stacking order, which only ever hold integers, are [Z]. *)

From Stdlib Require Import ZArith QArith Qminmax Qround String Ascii List Bool Lia Lqa DecimalString.
Import ListNotations.

Local Open Scope string_scope.
Local Open Scope Z_scope.

(** ** JavaScript primitives *)

Module Js.

(** [arr.length] *)
Definition length {A : Type} (l : list A) : Z := Z.of_nat (List.length l).

(** [arr[i]]: [undefined] (here [None]) outside of [0 .. length-1]. *)
Definition index {A : Type} (l : list A) (i : Z) : option A :=
  if i <? 0 then None else nth_error l (Z.to_nat i).

(** A relative index of [Array.prototype.slice]: negative counts from the
    end, and the result is clamped to [0 .. length]. *)
Definition relative (len i : Z) : Z :=
  if i <? 0 then Z.max (len + i) 0 else Z.min i len.

(** [arr.slice(start, stop)] *)
Definition slice {A : Type} (l : list A) (start stop : Z) : list A :=
  let len := length l in
  let k := relative len start in
  let final := relative len stop in
  firstn (Z.to_nat (final - k)) (skipn (Z.to_nat k) l).

(** [arr.push(v)], as the array it leaves behind. *)
Definition push {A : Type} (l : list A) (v : A) : list A := l ++ [v].

(** Truthiness of a [string | null]: [null] and the empty string are falsy. *)
Definition truthy (s : option string) : bool :=
  match s with
  | Some s => negb (String.eqb s "")
  | None => false
  end.

(** [a || b] on [string | null]. *)
Definition or (a b : option string) : option string :=
  if truthy a then a else b.

(** [s === t] for a string [s] and a [string | null] [t]. *)
Definition strict_eq (s : string) (t : option string) : bool :=
  match t with
  | Some t => String.eqb s t
  | None => false
  end.

(** White space removed by [String.prototype.trim] (Latin-1 range). *)
Definition is_space (c : ascii) : bool :=
  let n := nat_of_ascii c in
  ((9 <=? n) && (n <=? 13) || (n =? 32) || (n =? 160))%nat.

Fixpoint trim_start (s : string) : string :=
  match s with
  | String c r => if is_space c then trim_start r else s
  | EmptyString => EmptyString
  end.

Fixpoint rev_string (acc s : string) : string :=
  match s with
  | String c r => rev_string (String c acc) r
  | EmptyString => acc
  end.

(** [s.trim()] *)
Definition trim (s : string) : string :=
  rev_string "" (trim_start (rev_string "" (trim_start s))).

(** [s.split(',')] for a one character separator. *)
Fixpoint split (sep : ascii) (s : string) : list string :=
  match s with
  | EmptyString => [EmptyString]
  | String c r =>
      if Ascii.eqb c sep then EmptyString :: split sep r
      else match split sep r with
           | piece :: rest => String c piece :: rest
           | [] => [String c EmptyString]
           end
  end.

(** A number in a template literal (integers only). *)
Definition show (n : Z) : string := NilZero.string_of_int (Z.to_int n).

(** [Math.max] and [Math.min] on two numbers. *)
Definition max (a b : Q) : Q := Qmax a b.
Definition min (a b : Q) : Q := Qmin a b.

(** [a !== b] on numbers. *)
Definition num_neq (a b : Q) : bool := negb (Qeq_bool a b).

(** What a [catch] clause receives: an [Error] with its message, or any
    other thrown value. *)
Inductive thrown : Type :=
| ErrorObject (message : string)
| OtherValue.

(** [err instanceof Error ? err.message : fallback] *)
Definition message_or (fallback : string) (e : thrown) : string :=
  match e with
  | ErrorObject m => m
  | OtherValue => fallback
  end.

End Js.

(** ** Data model *)

(** A [File]: its bytes, its name and its MIME type. *)
Record File : Type := mkFile {
  file_bits : list ascii;
  file_name : string;
  file_type : string
}.

(** The [type] option of [new File]: emptied when it has a character
    outside of U+0020..U+007E, and put in ASCII lower case otherwise. *)
Module FileType.

Definition printable (c : ascii) : bool :=
  let n := nat_of_ascii c in ((32 <=? n) && (n <=? 126))%nat.

Definition lower (c : ascii) : ascii :=
  let n := nat_of_ascii c in
  if ((65 <=? n) && (n <=? 90))%nat then ascii_of_nat (n + 32) else c.

Fixpoint allPrintable (t : string) : bool :=
  match t with
  | EmptyString => true
  | String c r => printable c && allPrintable r
  end.

Fixpoint lowercase (t : string) : string :=
  match t with
  | EmptyString => EmptyString
  | String c r => String (lower c) (lowercase r)
  end.

Definition normalize (t : string) : string :=
  if allPrintable t then lowercase t else "".

End FileType.

(** [new File([bits], fileName, { type })] *)
Definition newFile (bits : list ascii) (fileName type : string) : File :=
  mkFile bits fileName (FileType.normalize type).

Module Point.
Record t : Type := mk { x : Q; y : Q }.
End Point.

Inductive Tab : Type :=
| retouch | adjust | filters | backgrounds | eyes | hats | accessories.

(** The element type of [assetOverlays] (interface [AssetOverlay]). *)
Module Overlay.
Record t : Type := mk {
  id : string;
  src : string;
  name : string;
  category : string;
  x : Q;
  y : Q;
  width : Q;
  height : Q;
  rotation : Q;
  opacity : Q;
  zIndex : Z
}.
End Overlay.

(** [Partial<AssetOverlay>]: the fields an update carries. *)
Module Partial.
Record t : Type := mk {
  id : option string;
  src : option string;
  name : option string;
  category : option string;
  x : option Q;
  y : option Q;
  width : option Q;
  height : option Q;
  rotation : option Q;
  opacity : option Q;
  zIndex : option Z
}.

Definition pick {A : Type} (old : A) (new : option A) : A :=
  match new with
  | Some v => v
  | None => old
  end.

(** [{ ...overlay, ...updates }] *)
Definition spread (o : Overlay.t) (u : t) : Overlay.t :=
  Overlay.mk
    (pick (Overlay.id o) (id u))
    (pick (Overlay.src o) (src u))
    (pick (Overlay.name o) (name u))
    (pick (Overlay.category o) (category u))
    (pick (Overlay.x o) (x u))
    (pick (Overlay.y o) (y u))
    (pick (Overlay.width o) (width u))
    (pick (Overlay.height o) (height u))
    (pick (Overlay.rotation o) (rotation u))
    (pick (Overlay.opacity o) (opacity u))
    (pick (Overlay.zIndex o) (zIndex u)).
End Partial.

(** The argument of [handleAssetSelect]. *)
Module Asset.
Record t : Type := mk { name : string; path : string; category : string }.
End Asset.

(** The [useState] cells of [App]. *)
Record AppState : Type := mkApp {
  history : list File;
  historyIndex : Z;
  prompt : string;
  isLoading : bool;
  error : option string;
  editHotspot : option Point.t;
  displayHotspot : option Point.t;
  activeTab : Tab;
  hasStarted : bool;
  assetOverlays : list Overlay.t;
  isEditingAssets : bool;
  isComparing : bool
}.

(** The state of the first render. *)
Definition initialState : AppState :=
  mkApp [] (-1) "" false None None None retouch false [] false false.

(** *** State setters *)

Definition setHistory (v : list File) (s : AppState) : AppState :=
  mkApp v (historyIndex s) (prompt s) (isLoading s) (error s) (editHotspot s)
        (displayHotspot s) (activeTab s) (hasStarted s) (assetOverlays s)
        (isEditingAssets s) (isComparing s).

Definition setHistoryIndex (v : Z) (s : AppState) : AppState :=
  mkApp (history s) v (prompt s) (isLoading s) (error s) (editHotspot s)
        (displayHotspot s) (activeTab s) (hasStarted s) (assetOverlays s)
        (isEditingAssets s) (isComparing s).

Definition setPrompt (v : string) (s : AppState) : AppState :=
  mkApp (history s) (historyIndex s) v (isLoading s) (error s) (editHotspot s)
        (displayHotspot s) (activeTab s) (hasStarted s) (assetOverlays s)
        (isEditingAssets s) (isComparing s).

Definition setIsLoading (v : bool) (s : AppState) : AppState :=
  mkApp (history s) (historyIndex s) (prompt s) v (error s) (editHotspot s)
        (displayHotspot s) (activeTab s) (hasStarted s) (assetOverlays s)
        (isEditingAssets s) (isComparing s).

Definition setError (v : option string) (s : AppState) : AppState :=
  mkApp (history s) (historyIndex s) (prompt s) (isLoading s) v (editHotspot s)
        (displayHotspot s) (activeTab s) (hasStarted s) (assetOverlays s)
        (isEditingAssets s) (isComparing s).

Definition setEditHotspot (v : option Point.t) (s : AppState) : AppState :=
  mkApp (history s) (historyIndex s) (prompt s) (isLoading s) (error s) v
        (displayHotspot s) (activeTab s) (hasStarted s) (assetOverlays s)
        (isEditingAssets s) (isComparing s).

Definition setDisplayHotspot (v : option Point.t) (s : AppState) : AppState :=
  mkApp (history s) (historyIndex s) (prompt s) (isLoading s) (error s)
        (editHotspot s) v (activeTab s) (hasStarted s) (assetOverlays s)
        (isEditingAssets s) (isComparing s).

Definition setActiveTab (v : Tab) (s : AppState) : AppState :=
  mkApp (history s) (historyIndex s) (prompt s) (isLoading s) (error s)
        (editHotspot s) (displayHotspot s) v (hasStarted s) (assetOverlays s)
        (isEditingAssets s) (isComparing s).

Definition setHasStarted (v : bool) (s : AppState) : AppState :=
  mkApp (history s) (historyIndex s) (prompt s) (isLoading s) (error s)
        (editHotspot s) (displayHotspot s) (activeTab s) v (assetOverlays s)
        (isEditingAssets s) (isComparing s).

Definition setAssetOverlays (v : list Overlay.t) (s : AppState) : AppState :=
  mkApp (history s) (historyIndex s) (prompt s) (isLoading s) (error s)
        (editHotspot s) (displayHotspot s) (activeTab s) (hasStarted s) v
        (isEditingAssets s) (isComparing s).

Definition setIsEditingAssets (v : bool) (s : AppState) : AppState :=
  mkApp (history s) (historyIndex s) (prompt s) (isLoading s) (error s)
        (editHotspot s) (displayHotspot s) (activeTab s) (hasStarted s)
        (assetOverlays s) v (isComparing s).

Definition setIsComparing (v : bool) (s : AppState) : AppState :=
  mkApp (history s) (historyIndex s) (prompt s) (isLoading s) (error s)
        (editHotspot s) (displayHotspot s) (activeTab s) (hasStarted s)
        (assetOverlays s) (isEditingAssets s) v.

(** Statements of a handler run top to bottom: [s |> f |> g] is [f] then [g]. *)
Notation "s |> f" := (f s) (at level 45, left associativity, only parsing).

(** ** History manager *)

(** [const currentImage = history[historyIndex] ?? null] *)
Definition currentImage (s : AppState) : option File :=
  Js.index (history s) (historyIndex s).

(** [const originalImage = history[0] ?? null] *)
Definition originalImage (s : AppState) : option File :=
  Js.index (history s) 0.

Definition canUndo (s : AppState) : bool := 0 <? historyIndex s.

Definition canRedo (s : AppState) : bool :=
  historyIndex s <? Js.length (history s) - 1.

(** [addImageToHistory], a callback that closes over [history] and
    [historyIndex] of the render [seen] it was created in and writes to the
    state [s] current when it runs. *)
Definition addImageToHistory (seen : AppState) (newImageFile : File)
    (s : AppState) : AppState :=
  let newHistory :=
    Js.push (Js.slice (history seen) 0 (historyIndex seen + 1)) newImageFile in
  s |> setHistory newHistory
    |> setHistoryIndex (Js.length newHistory - 1).

(** [append]: [addImageToHistory] called in the render it was created in. *)
Definition append (newImageFile : File) (s : AppState) : AppState :=
  addImageToHistory s newImageFile s.

Definition handleImageUpload (file : File) (s : AppState) : AppState :=
  s |> setError None
    |> setHistory [file]
    |> setHistoryIndex 0
    |> setEditHotspot None
    |> setDisplayHotspot None
    |> setActiveTab retouch.

Definition handleUndo (s : AppState) : AppState :=
  if canUndo s then
    s |> setHistoryIndex (historyIndex s - 1)
      |> setEditHotspot None
      |> setDisplayHotspot None
  else s.

Definition handleRedo (s : AppState) : AppState :=
  if canRedo s then
    s |> setHistoryIndex (historyIndex s + 1)
      |> setEditHotspot None
      |> setDisplayHotspot None
  else s.

Definition handleReset (s : AppState) : AppState :=
  if 0 <? Js.length (history s) then
    s |> setHistoryIndex 0
      |> setError None
      |> setEditHotspot None
      |> setDisplayHotspot None
  else s.

Definition handleUploadNew (s : AppState) : AppState :=
  s |> setHistory []
    |> setHistoryIndex (-1)
    |> setError None
    |> setPrompt ""
    |> setEditHotspot None
    |> setDisplayHotspot None.

(** ** Decoding the image a remote call returns *)

Module DataUrl.

Definition is_line_terminator (c : ascii) : bool :=
  let n := nat_of_ascii c in ((n =? 10) || (n =? 13))%nat.

(** The lazy group [(.*?)] followed by [;]: the text before the first [;],
    unless a line terminator (which [.] refuses) or the end comes first. *)
Fixpoint up_to_semicolon (s : string) : option string :=
  match s with
  | EmptyString => None
  | String c r =>
      if Ascii.eqb c ";" then Some EmptyString
      else if is_line_terminator c then None
      else option_map (String c) (up_to_semicolon r)
  end.

(** [s.match(/:(.*?);/)?.[1]]: the group of the leftmost match. *)
Fixpoint mime_match (s : string) : option string :=
  match s with
  | EmptyString => None
  | String c r =>
      if Ascii.eqb c ":" then
        match up_to_semicolon r with
        | Some m => Some m
        | None => mime_match r
        end
      else mime_match r
  end.

(** [bstr.charCodeAt(n)] for [n] below the length. *)
Definition charCodeAt (bstr : string) (n : nat) : ascii :=
  match String.get n bstr with
  | Some c => c
  | None => Ascii.zero
  end.

(** [u8arr[n] = v] on a typed array: nothing happens out of range. *)
Fixpoint store (n : nat) (v : ascii) (u8arr : list ascii) : list ascii :=
  match u8arr, n with
  | [], _ => []
  | _ :: rest, O => v :: rest
  | c :: rest, S k => c :: store k v rest
  end.

(** [while (n--) { u8arr[n] = bstr.charCodeAt(n); }] *)
Fixpoint copy_loop (n : nat) (bstr : string) (u8arr : list ascii) : list ascii :=
  match n with
  | O => u8arr
  | S k => copy_loop k bstr (store k (charCodeAt bstr k) u8arr)
  end.

End DataUrl.

Section Decoding.

(** The browser's base64 decoder: the decoded binary string, or what it
    throws on an invalid payload. *)
Variable atob : string -> Js.thrown + string.

Definition dataURLtoFile (dataurl filename : string) : Js.thrown + File :=
  let arr := Js.split "," dataurl in
  if Js.length arr <? 2 then inl (Js.ErrorObject "Invalid data URL")
  else
    match arr with
    | arr0 :: arr1 :: _ =>
        let mime :=
          match DataUrl.mime_match arr0 with
          | Some m => if String.eqb m "" then "image/png" else m
          | None => "image/png"
          end in
        match atob arr1 with
        | inl e => inl e
        | inr bstr =>
            let n := String.length bstr in
            let u8arr := repeat Ascii.zero n in
            inr (newFile (DataUrl.copy_loop n bstr u8arr) filename mime)
        end
    | _ => inl (Js.ErrorObject "Invalid data URL")
    end.

(** ** Remote edits

    [generateEditedImage], [generateFilteredImage] and
    [generateAdjustedImage] belong to the remote service: a call is
    recorded as a request, and its promise later settles with a data URL
    or with a thrown value. *)

Inductive Request : Type :=
| EditRequest (image : File) (userPrompt : string) (hotspot : Point.t)
| FilterRequest (image : File) (filterPrompt : string)
| AdjustmentRequest (image : File) (adjustmentPrompt : string).

Definition Settled : Type := (Js.thrown + string)%type.

(** [handleGenerate] up to its [await]. *)
Definition handleGenerate (s : AppState) : AppState * option Request :=
  match currentImage s with
  | None => (s |> setError (Some "No image loaded to edit."), None)
  | Some image =>
      if String.eqb (Js.trim (prompt s)) "" then
        (s |> setError (Some "Please enter a description for your edit."), None)
      else
        match editHotspot s with
        | None =>
            (s |> setError
                    (Some "Please click on the image to select an area to edit."),
             None)
        | Some hotspot =>
            (s |> setIsLoading true |> setError None,
             Some (EditRequest image (prompt s) hotspot))
        end
  end.

(** [handleGenerate] from its [await] on: [seen] is the render the handler
    was created in, [now] is [Date.now()], [s] the state when it resumes. *)
Definition handleGenerate_resume (seen : AppState) (now : Z)
    (result : Settled) (s : AppState) : AppState :=
  let caught (err : Js.thrown) :=
    s |> setError
           (Some ("Failed to generate the image. "
                  ++ Js.message_or "An unknown error occurred." err)) in
  let tried :=
    match result with
    | inl err => caught err
    | inr editedImageUrl =>
        match dataURLtoFile editedImageUrl
                ("edited-" ++ Js.show now ++ ".png") with
        | inl err => caught err
        | inr newImageFile =>
            s |> addImageToHistory seen newImageFile
              |> setEditHotspot None
              |> setDisplayHotspot None
        end
    end in
  tried |> setIsLoading false.

Definition handleApplyFilter (filterPrompt : string) (s : AppState)
    : AppState * option Request :=
  match currentImage s with
  | None => (s |> setError (Some "No image loaded to apply a filter to."), None)
  | Some image =>
      (s |> setIsLoading true |> setError None,
       Some (FilterRequest image filterPrompt))
  end.

Definition handleApplyFilter_resume (seen : AppState) (now : Z)
    (result : Settled) (s : AppState) : AppState :=
  let caught (err : Js.thrown) :=
    s |> setError
           (Some ("Failed to apply the filter. "
                  ++ Js.message_or "An unknown error occurred." err)) in
  let tried :=
    match result with
    | inl err => caught err
    | inr filteredImageUrl =>
        match dataURLtoFile filteredImageUrl
                ("filtered-" ++ Js.show now ++ ".png") with
        | inl err => caught err
        | inr newImageFile => s |> addImageToHistory seen newImageFile
        end
    end in
  tried |> setIsLoading false.

Definition handleApplyAdjustment (adjustmentPrompt : string) (s : AppState)
    : AppState * option Request :=
  match currentImage s with
  | None =>
      (s |> setError (Some "No image loaded to apply an adjustment to."), None)
  | Some image =>
      (s |> setIsLoading true |> setError None,
       Some (AdjustmentRequest image adjustmentPrompt))
  end.

Definition handleApplyAdjustment_resume (seen : AppState) (now : Z)
    (result : Settled) (s : AppState) : AppState :=
  let caught (err : Js.thrown) :=
    s |> setError
           (Some ("Failed to apply the adjustment. "
                  ++ Js.message_or "An unknown error occurred." err)) in
  let tried :=
    match result with
    | inl err => caught err
    | inr adjustedImageUrl =>
        match dataURLtoFile adjustedImageUrl
                ("adjusted-" ++ Js.show now ++ ".png") with
        | inl err => caught err
        | inr newImageFile => s |> addImageToHistory seen newImageFile
        end
    end in
  tried |> setIsLoading false.

(** Which handler a pending request resumes. *)
Definition resume (r : Request) : AppState -> Z -> Settled -> AppState -> AppState :=
  match r with
  | EditRequest _ _ _ => handleGenerate_resume
  | FilterRequest _ _ => handleApplyFilter_resume
  | AdjustmentRequest _ _ => handleApplyAdjustment_resume
  end.

(** The file name prefix and the message prefix of each handler. *)
Definition filePrefix (r : Request) : string :=
  match r with
  | EditRequest _ _ _ => "edited-"
  | FilterRequest _ _ => "filtered-"
  | AdjustmentRequest _ _ => "adjusted-"
  end.

Definition failurePrefix (r : Request) : string :=
  match r with
  | EditRequest _ _ _ => "Failed to generate the image. "
  | FilterRequest _ _ => "Failed to apply the filter. "
  | AdjustmentRequest _ _ => "Failed to apply the adjustment. "
  end.

(** A remote attempt fails when its promise rejects or when the result it
    resolves with does not decode; the value the [catch] clause receives. *)
Definition failure (r : Request) (now : Z) (result : Settled)
    : option Js.thrown :=
  match result with
  | inl err => Some err
  | inr url =>
      match dataURLtoFile url (filePrefix r ++ Js.show now ++ ".png") with
      | inl err => Some err
      | inr _ => None
      end
  end.

End Decoding.

(** ** Loading the default character image *)

(** What [fetch('/assets/characters/zazu.png')] settles with: a rejection,
    or a response whose body [response.blob()] reads or fails to read. *)
Inductive FetchOutcome : Type :=
| FetchRejected (err : Js.thrown)
| FetchResponse (ok : bool) (status : Z) (statusText : string)
    (blob : Js.thrown + list ascii).

(** [loadZazuImage] up to its first [await]. *)
Definition loadZazuImage (s : AppState) : AppState :=
  s |> setIsLoading true |> setError None.

(** [loadZazuImage] from its first [await] on. *)
Definition loadZazuImage_resume (outcome : FetchOutcome) (s : AppState)
    : AppState :=
  let caught (err : Js.thrown) :=
    s |> setError (Some (Js.message_or "Failed to load Zazu image" err)) in
  let tried :=
    match outcome with
    | FetchRejected err => caught err
    | FetchResponse ok status statusText blob =>
        if negb ok then
          caught (Js.ErrorObject
                    ("Failed to load Zazu image: " ++ Js.show status ++ " "
                     ++ statusText))
        else
          match blob with
          | inl err => caught err
          | inr bytes =>
              let zazuFile := newFile bytes "zazu.png" "image/png" in
              s |> setHistory [zazuFile]
                |> setHistoryIndex 0
                |> setEditHotspot None
                |> setDisplayHotspot None
                |> setActiveTab retouch
                |> setHasStarted true
          end
    end in
  tried |> setIsLoading false.

(** ** Composition engine: the overlay set *)

(** The size of the export canvas ([canvas.width], [canvas.height]). *)
Definition canvas_width : Q := 400%Q.
Definition canvas_height : Q := 400%Q.

(** [handleAssetSelect]; [now] is [Date.now()] and [token] the random
    suffix [Math.random().toString(36).substr(2, 9)]. *)
Definition handleAssetSelect (asset : Asset.t) (now : Z) (token : string)
    (s : AppState) : AppState :=
  match currentImage s with
  | None => s |> setError (Some "No image loaded to add assets to.")
  | Some _ =>
      let category := Asset.category asset in
      let zIndex :=
        if String.eqb category "eyes" || String.eqb category "hats"
           || String.eqb category "accessories"
        then 1000
        else if String.eqb category "characters" then 500
        else 1 in
      let newOverlay :=
        Overlay.mk
          ("asset-" ++ Js.show now ++ "-" ++ token)
          (Asset.path asset)
          (Asset.name asset)
          category
          (if String.eqb category "backgrounds" then 0%Q else 50%Q)
          (if String.eqb category "backgrounds" then 0%Q else 50%Q)
          (if String.eqb category "backgrounds" then 400%Q else 100%Q)
          (if String.eqb category "backgrounds" then 400%Q else 100%Q)
          0%Q
          1%Q
          zIndex in
      s |> setAssetOverlays (assetOverlays s ++ [newOverlay])%list
        |> setIsEditingAssets true
  end.

Definition handleUpdateOverlay (id : string) (updates : Partial.t)
    (s : AppState) : AppState :=
  s |> setAssetOverlays
         (map (fun overlay =>
                 if String.eqb (Overlay.id overlay) id
                 then Partial.spread overlay updates
                 else overlay)
              (assetOverlays s)).

Definition handleRemoveOverlay (id : string) (s : AppState) : AppState :=
  s |> setAssetOverlays
         (filter (fun overlay => negb (String.eqb (Overlay.id overlay) id))
                 (assetOverlays s)).

Definition handleAddOverlay (overlay : Overlay.t) (s : AppState) : AppState :=
  s |> setAssetOverlays (assetOverlays s ++ [overlay])%list.

(** The [Clear All] button. *)
Definition clearAll (s : AppState) : AppState := s |> setAssetOverlays [].

(** A tab button. *)
Definition selectTab (tab : Tab) (s : AppState) : AppState :=
  s |> setActiveTab tab |> setIsEditingAssets false.

Definition isBackground (overlay : Overlay.t) : bool :=
  String.eqb (Overlay.category overlay) "backgrounds".

(** [assetOverlays.filter(overlay => overlay.category === 'backgrounds')] *)
Definition backgroundAssets (overlays : list Overlay.t) : list Overlay.t :=
  filter isBackground overlays.

(** [assetOverlays.filter(overlay => overlay.category !== 'backgrounds')] *)
Definition foregroundAssets (overlays : list Overlay.t) : list Overlay.t :=
  filter (fun overlay => negb (isBackground overlay)) overlays.

(** ** The [AssetOverlay] component: drag and resize *)

(** [getBoundingClientRect()] of the container. *)
Module Rect.
Record t : Type := mk { left : Q; top : Q; width : Q; height : Q }.
End Rect.

Record MouseEvent : Type := mkMouse { clientX : Q; clientY : Q }.

Inductive Action : Type := drag | resize.

(** The [useState] cells of the component. *)
Record DragState : Type := mkDrag {
  dragging : option string;
  dragStart : Point.t;
  resizing : option string
}.

Definition initialDrag : DragState := mkDrag None (Point.mk 0 0) None.

Definition setDragging (v : option string) (d : DragState) : DragState :=
  mkDrag v (dragStart d) (resizing d).

Definition setDragStart (v : Point.t) (d : DragState) : DragState :=
  mkDrag (dragging d) v (resizing d).

Definition setResizing (v : option string) (d : DragState) : DragState :=
  mkDrag (dragging d) (dragStart d) v.

(** [rect] is [containerRef.current?.getBoundingClientRect()]. *)
Definition handleMouseDown (rect : option Rect.t) (e : MouseEvent)
    (overlayId : string) (action : Action) (d : DragState) : DragState :=
  let d1 :=
    match action with
    | drag => d |> setDragging (Some overlayId)
    | resize => d |> setResizing (Some overlayId)
    end in
  match rect with
  | Some rect =>
      d1 |> setDragStart
              (Point.mk (clientX e - Rect.left rect) (clientY e - Rect.top rect))
  | None => d1
  end.

(** [handleMouseMove]: the next component state and the call it makes to
    [onUpdateOverlay], if any. *)
Definition handleMouseMove (overlays : list Overlay.t) (rect : option Rect.t)
    (e : MouseEvent) (d : DragState)
    : DragState * option (string * Partial.t) :=
  if negb (Js.truthy (dragging d)) && negb (Js.truthy (resizing d))
  then (d, None)
  else
    match rect with
    | None => (d, None)
    | Some rect =>
        let currentX := (clientX e - Rect.left rect)%Q in
        let currentY := (clientY e - Rect.top rect)%Q in
        let deltaX := (currentX - Point.x (dragStart d))%Q in
        let deltaY := (currentY - Point.y (dragStart d))%Q in
        match find (fun o =>
                      Js.strict_eq (Overlay.id o)
                                   (Js.or (dragging d) (resizing d)))
                   overlays with
        | None => (d, None)
        | Some overlay =>
            let call :=
              if Js.truthy (dragging d) then
                Some (Overlay.id overlay,
                      Partial.mk None None None None
                        (Some (Js.max 0 (Js.min (Rect.width rect - Overlay.width overlay)
                                                (Overlay.x overlay + deltaX))))
                        (Some (Js.max 0 (Js.min (Rect.height rect - Overlay.height overlay)
                                                (Overlay.y overlay + deltaY))))
                        None None None None None)
              else if Js.truthy (resizing d) then
                let newWidth := Js.max 20 (Overlay.width overlay + deltaX) in
                let newHeight := Js.max 20 (Overlay.height overlay + deltaY) in
                Some (Overlay.id overlay,
                      Partial.mk None None None None None None
                        (Some newWidth) (Some newHeight) None None None)
              else None in
            (d |> setDragStart (Point.mk currentX currentY), call)
        end
    end.

Definition handleMouseUp (d : DragState) : DragState :=
  d |> setDragging None |> setResizing None.

(** A pointer move as [App] wires it: the component receives the overlays
    that are not backgrounds and [handleUpdateOverlay] as [onUpdateOverlay]. *)
Definition pointerMove (rect : option Rect.t) (e : MouseEvent)
    (ds : DragState * AppState) : DragState * AppState :=
  let (d, s) := ds in
  match handleMouseMove (foregroundAssets (assetOverlays s)) rect e d with
  | (d', Some (id, updates)) => (d', handleUpdateOverlay id updates s)
  | (d', None) => (d', s)
  end.

(** Pressing a handle of an overlay, and releasing or leaving. *)
Definition pointerDown (rect : option Rect.t) (e : MouseEvent)
    (overlayId : string) (action : Action) (ds : DragState * AppState)
    : DragState * AppState :=
  (handleMouseDown rect e overlayId action (fst ds), snd ds).

Definition pointerUp (ds : DragState * AppState) : DragState * AppState :=
  (handleMouseUp (fst ds), snd ds).

(** ** Flattening to a canvas ([handleDownload])

    The 2D context is a state: the current alpha and transform, the stack
    of [save], and what has been painted so far, oldest first.  An angle is
    kept as its coefficient of pi: [Rotate c] turns by [c * pi] radians. *)

Inductive Transform : Type :=
| Translate (x y : Q)
| Rotate (piCoefficient : Q).

Inductive Paint : Type :=
| FillRect (style : string) (x y w h : Q)
| Image (src : string) (x y w h : Q) (alpha : Q) (transform : list Transform).

Record Context2D : Type := mkCtx {
  fillStyle : string;
  globalAlpha : Q;
  transform : list Transform;
  saved : list (string * Q * list Transform);
  painted : list Paint
}.

Module Ctx.

(** The context of a canvas just created. *)
Definition fresh : Context2D := mkCtx "#000000" 1 [] [] [].

Definition setFillStyle (v : string) (c : Context2D) : Context2D :=
  mkCtx v (globalAlpha c) (transform c) (saved c) (painted c).

Definition setGlobalAlpha (v : Q) (c : Context2D) : Context2D :=
  mkCtx (fillStyle c) v (transform c) (saved c) (painted c).

Definition save (c : Context2D) : Context2D :=
  mkCtx (fillStyle c) (globalAlpha c) (transform c)
        ((fillStyle c, globalAlpha c, transform c) :: saved c) (painted c).

Definition restore (c : Context2D) : Context2D :=
  match saved c with
  | (style, alpha, tr) :: rest => mkCtx style alpha tr rest (painted c)
  | [] => c
  end.

Definition translate (x y : Q) (c : Context2D) : Context2D :=
  mkCtx (fillStyle c) (globalAlpha c) (transform c ++ [Translate x y])%list
        (saved c) (painted c).

Definition rotate (piCoefficient : Q) (c : Context2D) : Context2D :=
  mkCtx (fillStyle c) (globalAlpha c) (transform c ++ [Rotate piCoefficient])%list
        (saved c) (painted c).

Definition fillRect (x y w h : Q) (c : Context2D) : Context2D :=
  mkCtx (fillStyle c) (globalAlpha c) (transform c) (saved c)
        (painted c ++ [FillRect (fillStyle c) x y w h])%list.

Definition drawImage (img : string) (x y w h : Q) (c : Context2D) : Context2D :=
  mkCtx (fillStyle c) (globalAlpha c) (transform c) (saved c)
        (painted c ++ [Image img x y w h (globalAlpha c) (transform c)])%list.

End Ctx.

Section Download.

(** Whether the image at a source loads ([onload]) or not ([onerror]). *)
Variable loads : string -> bool.

(** The local [drawImage] of [handleDownload], awaited to its end. *)
Definition drawImage (src : string) (x y width height : Q)
    (rotation opacity : Q) (ctx : Context2D) : Context2D :=
  if loads src then
    let ctx := ctx |> Ctx.save |> Ctx.setGlobalAlpha opacity in
    let ctx :=
      if Js.num_neq rotation 0 then
        let centerX := (x + width / 2)%Q in
        let centerY := (y + height / 2)%Q in
        ctx |> Ctx.translate centerX centerY
            |> Ctx.rotate (rotation / 180)
            |> Ctx.translate (- centerX) (- centerY)
      else ctx in
    ctx |> Ctx.drawImage src x y width height |> Ctx.restore
  else ctx.

Definition drawAsset (ctx : Context2D) (asset : Overlay.t) : Context2D :=
  drawImage (Overlay.src asset) (Overlay.x asset) (Overlay.y asset)
            (Overlay.width asset) (Overlay.height asset)
            (Overlay.rotation asset) (Overlay.opacity asset) ctx.

Definition zazuSize : Q := 380%Q.
Definition zazuX : Q := ((canvas_width - zazuSize) / 2)%Q.
Definition zazuY : Q := (canvas_height - zazuSize)%Q.

(** [drawComposition], up to the hand-over of the canvas to the download. *)
Definition drawComposition (assetOverlays : list Overlay.t)
    (currentImageUrl : option string) (ctx : Context2D) : Context2D :=
  let ctx := fold_left drawAsset (backgroundAssets assetOverlays) ctx in
  let ctx :=
    if Js.truthy currentImageUrl then
      match currentImageUrl with
      | Some url => drawImage url zazuX zazuY zazuSize zazuSize 0 1 ctx
      | None => ctx
      end
    else ctx in
  fold_left drawAsset (foregroundAssets assetOverlays) ctx.

(** [handleDownload] with the display mounted and a 2D context at hand:
    the canvas filled white, then the composition drawn over it. *)
Definition handleDownload (assetOverlays : list Overlay.t)
    (currentImageUrl : option string) : Context2D :=
  Ctx.fresh |> Ctx.setFillStyle "#ffffff"
            |> Ctx.fillRect 0 0 canvas_width canvas_height
            |> drawComposition assetOverlays currentImageUrl.

End Download.

(** ** The event loop

    The page as a whole: the state of [App] and the remote calls still in
    flight, each with the render its handler was created in. *)

Record World : Type := mkWorld {
  app : AppState;
  inFlight : list (Request * AppState)
}.

Definition initialWorld : World := mkWorld initialState [].

Inductive Event : Type :=
| Upload (file : File)
| LoadZazu
| ZazuSettled (outcome : FetchOutcome)
| Append (file : File)
| Undo
| Redo
| Reset
| UploadNew
| Generate
| ApplyFilter (filterPrompt : string)
| ApplyAdjustment (adjustmentPrompt : string)
| RemoteSettled (k : nat) (now : Z) (result : Settled)
| TypePrompt (text : string)
| ClickImage (edit display : Point.t)
| SelectTab (tab : Tab)
| TryAgain
| AssetSelect (asset : Asset.t) (now : Z) (token : string)
| UpdateOverlay (id : string) (updates : Partial.t)
| RemoveOverlay (id : string)
| ClearAll.

(** [handleImageClick], with the two points it computes from the geometry
    of the click given. *)
Definition handleImageClick (edit display : Point.t) (s : AppState) : AppState :=
  match activeTab s with
  | retouch => s |> setDisplayHotspot (Some display) |> setEditHotspot (Some edit)
  | _ => s
  end.

Fixpoint dropOne {A : Type} (k : nat) (l : list A) : list A :=
  match l, k with
  | [], _ => []
  | _ :: rest, O => rest
  | a :: rest, S k' => a :: dropOne k' rest
  end.

Section EventLoop.

Variable atob : string -> Js.thrown + string.

Definition only (f : AppState -> AppState) (w : World) : World :=
  mkWorld (f (app w)) (inFlight w).

Definition issue (call : AppState -> AppState * option Request) (w : World)
    : World :=
  let (s', request) := call (app w) in
  match request with
  | Some r => mkWorld s' (inFlight w ++ [(r, app w)])%list
  | None => mkWorld s' (inFlight w)
  end.

Definition step (w : World) (ev : Event) : World :=
  match ev with
  | Upload file => only (handleImageUpload file) w
  | LoadZazu => only loadZazuImage w
  | ZazuSettled outcome => only (loadZazuImage_resume outcome) w
  | Append file => only (append file) w
  | Undo => only handleUndo w
  | Redo => only handleRedo w
  | Reset => only handleReset w
  | UploadNew => only handleUploadNew w
  | Generate => issue handleGenerate w
  | ApplyFilter filterPrompt => issue (handleApplyFilter filterPrompt) w
  | ApplyAdjustment adjustmentPrompt =>
      issue (handleApplyAdjustment adjustmentPrompt) w
  | RemoteSettled k now result =>
      match nth_error (inFlight w) k with
      | Some (r, seen) =>
          mkWorld (resume atob r seen now result (app w))
                  (dropOne k (inFlight w))
      | None => w
      end
  | TypePrompt text => only (setPrompt text) w
  | ClickImage edit display => only (handleImageClick edit display) w
  | SelectTab tab => only (selectTab tab) w
  | TryAgain => only (setError None) w
  | AssetSelect asset now token => only (handleAssetSelect asset now token) w
  | UpdateOverlay id updates => only (handleUpdateOverlay id updates) w
  | RemoveOverlay id => only (handleRemoveOverlay id) w
  | ClearAll => only clearAll w
  end.

Definition run (events : list Event) (w : World) : World :=
  fold_left step events w.

End EventLoop.

(** ** Vocabulary of the properties *)

(** Moves of the cursor that leave the sequence alone. *)
Inductive Nav : Type := NavUndo | NavRedo | NavReset.

Definition navigate (s : AppState) (n : Nav) : AppState :=
  match n with
  | NavUndo => handleUndo s
  | NavRedo => handleRedo s
  | NavReset => handleReset s
  end.

(** The cursor is [-1] on an empty sequence and an index of it otherwise. *)
Definition cursorOk (s : AppState) : Prop :=
  (history s = [] /\ historyIndex s = -1)
  \/ (0 <= historyIndex s <= Js.length (history s) - 1).

(** The overlay that [handleMouseMove] looks up. *)
Definition isTarget (d : DragState) (o : Overlay.t) : bool :=
  Js.strict_eq (Overlay.id o) (Js.or (dragging d) (resizing d)).

(** An overlay with another stacking order. *)
Definition withZIndex (z : Z) (o : Overlay.t) : Overlay.t :=
  Overlay.mk (Overlay.id o) (Overlay.src o) (Overlay.name o)
             (Overlay.category o) (Overlay.x o) (Overlay.y o)
             (Overlay.width o) (Overlay.height o) (Overlay.rotation o)
             (Overlay.opacity o) z.

(** The flattening as the specification words it: layers in a fixed order,
    each painted on its own. *)
Module Spec.

Record Layer : Type := mkLayer {
  src : string;
  x : Q;
  y : Q;
  width : Q;
  height : Q;
  rotation : Q;
  opacity : Q
}.

Definition ofOverlay (o : Overlay.t) : Layer :=
  mkLayer (Overlay.src o) (Overlay.x o) (Overlay.y o) (Overlay.width o)
          (Overlay.height o) (Overlay.rotation o) (Overlay.opacity o).

(** The base image: a square of side 380, no rotation, fully opaque. *)
Definition base (url : string) : Layer :=
  mkLayer url zazuX zazuY 380 380 0 1.

(** (1) the backgrounds, (2) the base image, (3) every other overlay, the
    overlays in the order of the set. *)
Definition order (overlays : list Overlay.t) (url : string) : list Layer :=
  (map ofOverlay (filter isBackground overlays)
   ++ [base url]
   ++ map ofOverlay (filter (fun o => negb (isBackground o)) overlays))%list.

(** Rotation about the centre of the bounding box: translate to the
    centre, rotate, translate back; nothing for a rotation of zero. *)
Definition aboutCentre (l : Layer) : list Transform :=
  if Qeq_bool (rotation l) 0 then []
  else
    [Translate (x l + width l / 2) (y l + height l / 2);
     Rotate (rotation l / 180);
     Translate (- (x l + width l / 2)) (- (y l + height l / 2))].

Definition paint (l : Layer) : Paint :=
  Image (src l) (x l) (y l) (width l) (height l) (opacity l) (aboutCentre l).

(** What ends up on the white canvas: the layers whose image loads, in
    order. *)
Definition flattened (loads : string -> bool) (overlays : list Overlay.t)
    (url : string) : list Paint :=
  FillRect "#ffffff" 0 0 canvas_width canvas_height
  :: map paint (filter (fun l => loads (src l)) (order overlays url)).

End Spec.

(** ** Sample inputs *)

Module Sample.

Definition A : File := mkFile [] "zazu.png" "image/png".
Definition B : File := mkFile [] "edited-1.png" "image/png".
Definition C : File := mkFile [] "filtered-2.png" "image/png".
Definition D : File := mkFile [] "adjusted-3.png" "image/png".

(** Three versions, the cursor on the second after one undo. *)
Definition afterUndo : AppState :=
  mkApp [A; B; C] 1 "" false None None None retouch true [] false false.

(** One version loaded and nothing else. *)
Definition loaded : AppState :=
  mkApp [A] 0 "" false None None None retouch true [] false false.

Definition background : Asset.t :=
  Asset.mk "Green" "/assets/backgrounds/green.jpg" "backgrounds".

Definition beanie : Asset.t :=
  Asset.mk "Beanie" "/assets/hats/beanie.png" "hats".

Definition rigby : Asset.t :=
  Asset.mk "Rigby" "/assets/characters/rigby.png" "characters".

(** The overlays after selecting a background and then a character. *)
Definition withCharacter : AppState :=
  loaded |> handleAssetSelect background 1 "aaaaaaaaa"
         |> handleAssetSelect rigby 2 "bbbbbbbbb".

(** A hat as it is created, and the container of the editor. *)
Definition withHat : AppState :=
  loaded |> handleAssetSelect beanie 3 "ccccccccc".

Definition hatId : string := "asset-3-ccccccccc".

Definition container : Rect.t := Rect.mk 0 0 400 400.

(** The hat resized up to the right edge, dragged to the left edge and
    resized up to the right edge again: it is now wider than the
    container. *)
Definition grownHat : DragState * AppState :=
  (initialDrag, withHat)
    |> pointerDown (Some container) (mkMouse 140 140) hatId resize
    |> pointerMove (Some container) (mkMouse 395 140)
    |> pointerUp
    |> pointerDown (Some container) (mkMouse 60 60) hatId drag
    |> pointerMove (Some container) (mkMouse 10 60)
    |> pointerUp
    |> pointerDown (Some container) (mkMouse 340 140) hatId resize
    |> pointerMove (Some container) (mkMouse 395 140)
    |> pointerUp.

(** The drag handle of the grown hat pressed. *)
Definition grownHatHeld : DragState * AppState :=
  grownHat |> pointerDown (Some container) (mkMouse 60 60) hatId drag.

(** The drag handle of the hat pressed, just after its creation. *)
Definition hatHeld : DragState * AppState :=
  (initialDrag, withHat)
    |> pointerDown (Some container) (mkMouse 60 60) hatId drag.

(** A decoder that accepts every payload as it is. *)
Definition atob (payload : string) : Js.thrown + string := inr payload.

Definition allLoad (src : string) : bool := true.

End Sample.

(** ** Handlers around the history and the overlays *)

(** [handleFileSelect]: [files] is a [FileList | null]; only its first
    file is looked at. *)
Definition handleFileSelect (files : option (list File)) (s : AppState)
    : AppState :=
  match files with
  | Some files =>
      match Js.index files 0 with
      | Some file => handleImageUpload file s
      | None => s
      end
  | None => s
  end.

(** The [-] button under an overlay, as the component calls
    [onUpdateOverlay]. *)
Definition opacityMinus (overlay : Overlay.t) : string * Partial.t :=
  (Overlay.id overlay,
   Partial.mk None None None None None None None None None
     (Some (Js.max 0.1 (Overlay.opacity overlay - 0.1))) None).

(** The [+] button under an overlay. *)
Definition opacityPlus (overlay : Overlay.t) : string * Partial.t :=
  (Overlay.id overlay,
   Partial.mk None None None None None None None None None
     (Some (Js.min 1 (Overlay.opacity overlay + 0.1))) None).

(** A call of [onUpdateOverlay] as [App] wires it. *)
Definition onUpdateOverlay (call : string * Partial.t) (s : AppState)
    : AppState :=
  handleUpdateOverlay (fst call) (snd call) s.

(** ** The click on the image ([handleImageClick])

    The geometry of the [img] element: its bounding rectangle, the size of
    the picture and the size it is rendered at (both whole numbers of
    pixels). *)
Record ImageBox : Type := mkImageBox {
  imgRect : Rect.t;
  naturalWidth : Z;
  naturalHeight : Z;
  offsetWidth : Z;
  offsetHeight : Z
}.

(** [Math.round]: the nearest integer, halves upwards. *)
Definition round (x : Q) : Q := inject_Z (Qfloor (x + (1 # 2))%Q).

(** The point of the picture and the point of the display that
    [handleImageClick] computes; [containerRect] is the rectangle of
    [imageDisplayRef.current], if mounted.  The rendered size is taken
    positive (a division by it). *)
Definition clickPoints (img : ImageBox) (containerRect : option Rect.t)
    (e : MouseEvent) : Point.t * Point.t :=
  let rect := imgRect img in
  let offsetX := (clientX e - Rect.left rect)%Q in
  let offsetY := (clientY e - Rect.top rect)%Q in
  let renderedWidth := inject_Z (offsetWidth img) in
  let renderedHeight := inject_Z (offsetHeight img) in
  let scaleX := (inject_Z (naturalWidth img) / renderedWidth)%Q in
  let scaleY := (inject_Z (naturalHeight img) / renderedHeight)%Q in
  let originalX := round (offsetX * scaleX) in
  let originalY := round (offsetY * scaleY) in
  let display :=
    match containerRect with
    | Some containerRect =>
        Point.mk (clientX e - Rect.left containerRect)
                 (clientY e - Rect.top containerRect)
    | None => Point.mk offsetX offsetY
    end in
  (Point.mk originalX originalY, display).

(** [handleImageClick] on a click event. *)
Definition handleImageClickAt (img : ImageBox) (containerRect : option Rect.t)
    (e : MouseEvent) (s : AppState) : AppState :=
  let (edit, display) := clickPoints img containerRect e in
  handleImageClick edit display s.

(** ** The asset browser ([AssetBrowser.tsx]) *)

Module AssetBrowser.

(** The categories [selectedCategory] ranges over. *)
Inductive Category : Type := backgrounds | eyes | hats | extras | characters.

Definition all : list Category := [backgrounds; eyes; hats; extras; characters].

(** The key of a category in [assetMap]. *)
Definition key (c : Category) : string :=
  match c with
  | backgrounds => "backgrounds"
  | eyes => "eyes"
  | hats => "hats"
  | extras => "extras"
  | characters => "characters"
  end.

(** [assetMap[category] || []] for a category of the browser. *)
Definition loadAssets (c : Category) : list Asset.t :=
  match c with
  | backgrounds =>
      [Asset.mk "Matrix Background" "/assets/backgrounds/matrix-5361690_1280.webp" "backgrounds";
       Asset.mk "Tropical Beach" "/assets/backgrounds/palm-tree-on-tropical-beach-600nw-2154569741.webp" "backgrounds";
       Asset.mk "Green Background" "/assets/backgrounds/green.jpg" "backgrounds";
       Asset.mk "Mars Landscape" "/assets/backgrounds/mars].jpg" "backgrounds";
       Asset.mk "CS:GO Dust 2" "/assets/backgrounds/csgo-dust-2-map-portion.avif" "backgrounds";
       Asset.mk "Stonks Chart" "/assets/backgrounds/stonks.webp" "backgrounds";
       Asset.mk "Businessman Zazu" "/assets/backgrounds/businessman-zazu-v0-tl153ilewywd1.webp" "backgrounds"]
  | eyes =>
      [Asset.mk "Clout Goggles" "/assets/eyes/7-79919_cartoon-clout-goggles-transparent-hd-png-download-removebg-preview.png" "eyes";
       Asset.mk "8-bit Glasses" "/assets/eyes/8bit-glasses.png" "eyes";
       Asset.mk "Aviator Sunglasses" "/assets/eyes/png-transparent-white-eyewear-shutter-shades-aviator-sunglasses-shutter-s-text-monochrome-glasses-removebg-preview.png" "eyes";
       Asset.mk "Sport Glasses" "/assets/eyes/pngtree-sport-glasses-mockup-mock-up-picture-image_7736765-removebg-preview.png" "eyes";
       Asset.mk "Sunglasses" "/assets/eyes/sunglasses-clipart-design-illustration-free-png-removebg-preview (1).png" "eyes"]
  | hats =>
      [Asset.mk "Army Helmet" "/assets/hats/army-helmet.png" "hats";
       Asset.mk "Beanie" "/assets/hats/beanie.png" "hats";
       Asset.mk "Cowboy Hat" "/assets/hats/cowboy-hat.png" "hats";
       Asset.mk "MAGA Hat" "/assets/hats/maga-hat.png" "hats";
       Asset.mk "Viking Helmet" "/assets/hats/viking-helmets-with-transparent-cutout-free-png-removebg-preview.png" "hats";
       Asset.mk "Yankees Hat" "/assets/hats/yankees-hat.png" "hats"]
  | extras =>
      [Asset.mk "Gold Chain" "/assets/extras/goldchain.png" "extras";
       Asset.mk "Smoke Effect" "/assets/extras/smoke.png" "extras";
       Asset.mk "Money Stack" "/assets/extras/stack-money-on-white-backround-260nw-71606644-removebg-preview.png" "extras";
       Asset.mk "Suit" "/assets/extras/suit.png" "extras"]
  | characters =>
      [Asset.mk "Zazu" "/assets/characters/zazu.png" "characters";
       Asset.mk "Rigby" "/assets/characters/rigby.png" "characters";
       Asset.mk "Crying Face" "/assets/characters/crying.png" "characters"]
  end.

End AssetBrowser.

(** ** The overlay editor as the user drives it

    What the rendered [AssetOverlay] component and the asset panels let a
    user do: the handles and the buttons of the [k]-th overlay of the
    component exist only in editing mode, the [Clear All] button only on
    an asset tab with at least one overlay. *)

Inductive Gesture : Type :=
| PickAsset (asset : Asset.t) (now : Z) (token : string)
| PressHandle (rect : option Rect.t) (e : MouseEvent) (k : nat) (action : Action)
| MovePointer (rect : option Rect.t) (e : MouseEvent)
| ReleasePointer
| PressRemove (k : nat)
| PressMinus (k : nat)
| PressPlus (k : nat)
| PressClearAll.

(** The [k]-th overlay the component renders with its controls. *)
Definition control (k : nat) (s : AppState) : option Overlay.t :=
  if isEditingAssets s
  then nth_error (foregroundAssets (assetOverlays s)) k
  else None.

Definition onAssetTab (s : AppState) : bool :=
  match activeTab s with
  | backgrounds | eyes | hats | accessories => true
  | _ => false
  end.

Definition gesture (ds : DragState * AppState) (g : Gesture)
    : DragState * AppState :=
  let (d, s) := ds in
  match g with
  | PickAsset asset now token => (d, handleAssetSelect asset now token s)
  | PressHandle rect e k action =>
      match control k s with
      | Some overlay => pointerDown rect e (Overlay.id overlay) action ds
      | None => ds
      end
  | MovePointer rect e => pointerMove rect e ds
  | ReleasePointer => pointerUp ds
  | PressRemove k =>
      match control k s with
      | Some overlay => (d, handleRemoveOverlay (Overlay.id overlay) s)
      | None => ds
      end
  | PressMinus k =>
      match control k s with
      | Some overlay => (d, onUpdateOverlay (opacityMinus overlay) s)
      | None => ds
      end
  | PressPlus k =>
      match control k s with
      | Some overlay => (d, onUpdateOverlay (opacityPlus overlay) s)
      | None => ds
      end
  | PressClearAll =>
      if onAssetTab s && (0 <? Js.length (assetOverlays s))
      then (d, clearAll s)
      else ds
  end.

(** An overlay as the editor can make it. *)
Definition overlayOk (o : Overlay.t) : Prop :=
  (0 <= Overlay.x o)%Q /\ (0 <= Overlay.y o)%Q
  /\ (20 <= Overlay.width o)%Q /\ (20 <= Overlay.height o)%Q
  /\ (0.1 <= Overlay.opacity o)%Q /\ (Overlay.opacity o <= 1)%Q
  /\ Overlay.rotation o = 0%Q
  /\ (Overlay.zIndex o = 1 \/ Overlay.zIndex o = 500 \/ Overlay.zIndex o = 1000).

(** An update that keeps an overlay as the editor can make it. *)
Definition updateOk (u : Partial.t) : Prop :=
  Partial.id u = None
  /\ (forall v, Partial.x u = Some v -> 0 <= v)%Q
  /\ (forall v, Partial.y u = Some v -> 0 <= v)%Q
  /\ (forall v, Partial.width u = Some v -> 20 <= v)%Q
  /\ (forall v, Partial.height u = Some v -> 20 <= v)%Q
  /\ (forall v, Partial.opacity u = Some v -> 0.1 <= v /\ v <= 1)%Q
  /\ Partial.rotation u = None
  /\ Partial.zIndex u = None.

(** An edit or a move of the cursor. *)
Definition edit (s : AppState) (op : File + Nav) : AppState :=
  match op with
  | inl v => append v s
  | inr n => navigate s n
  end.

(** ** Vocabulary of the further properties *)

(** The events that write to the overlay set. *)
Definition touchesOverlays (ev : Event) : bool :=
  match ev with
  | AssetSelect _ _ _ | UpdateOverlay _ _ | RemoveOverlay _ | ClearAll => true
  | _ => false
  end.

(** The events that write to the sequence of versions. *)
Definition touchesHistory (ev : Event) : bool :=
  match ev with
  | Upload _ | ZazuSettled _ | Append _ | UploadNew | RemoteSettled _ _ _ => true
  | _ => false
  end.

(** A string without a given character. *)
Fixpoint lacks (c : ascii) (s : string) : bool :=
  match s with
  | EmptyString => true
  | String a r => negb (Ascii.eqb a c) && lacks c r
  end.

(** A string of white space only. *)
Fixpoint blank (s : string) : bool :=
  match s with
  | EmptyString => true
  | String a r => Js.is_space a && blank r
  end.

(** A string of printable ASCII characters without capital letters: a
    file type that [new File] keeps as it is. *)
Fixpoint plain (t : string) : bool :=
  match t with
  | EmptyString => true
  | String c r =>
      let n := nat_of_ascii c in
      ((32 <=? n) && (n <=? 126) && negb ((65 <=? n) && (n <=? 90)))%nat
      && plain r
  end.

(** A string without a line terminator. *)
Fixpoint oneLine (s : string) : bool :=
  match s with
  | EmptyString => true
  | String a r => negb (DataUrl.is_line_terminator a) && oneLine r
  end.

(** Further sample inputs. *)
Module Case.

(** Three versions, the cursor on the last one. *)
Definition atTail : AppState :=
  mkApp [Sample.A; Sample.B; Sample.C] 2 "" false None None None retouch true
        [] false false.

(** Ready for a point edit: an image, a prompt and a hotspot. *)
Definition ready : AppState :=
  mkApp [Sample.A] 0 "add a hat" false None (Some (Point.mk 10 20))
        (Some (Point.mk 5 10)) retouch true [] false false.

(** A picture of 800 by 600 rendered at 380 by 380, 10 from the left and
    20 from the top of a container at the origin. *)
Definition box : ImageBox := mkImageBox (Rect.mk 10 20 380 380) 800 600 380 380.

Definition hat : Overlay.t :=
  Overlay.mk Sample.hatId "/assets/hats/beanie.png" "Beanie" "hats"
             50 50 100 100 0 1 1000.

End Case.

(** * Properties *)

(** ** Arrays *)

Lemma length_nonneg {A : Type} (l : list A) : 0 <= Js.length l.
Proof. unfold Js.length. lia. Qed.

Lemma length_push {A : Type} (l : list A) (v : A) :
  Js.length (Js.push l v) = Js.length l + 1.
Proof. unfold Js.length, Js.push. rewrite length_app. simpl. lia. Qed.

(** [slice(0, n)] keeps the first [n] entries. *)
Lemma slice_prefix {A : Type} (l : list A) (n : Z) :
  0 <= n -> Js.slice l 0 n = firstn (Z.to_nat n) l.
Proof.
  intro Hn. unfold Js.slice, Js.relative.
  assert (Hlen := length_nonneg l).
  replace (0 <? 0) with false by reflexivity.
  replace (n <? 0) with false by (symmetry; apply Z.ltb_ge; lia).
  rewrite (Z.min_l 0) by lia. simpl skipn.
  destruct (Z.le_gt_cases n (Js.length l)) as [Hle | Hgt].
  - rewrite Z.min_l by lia. now rewrite Z.sub_0_r.
  - rewrite Z.min_r by lia. rewrite Z.sub_0_r.
    unfold Js.length in *. rewrite Nat2Z.id.
    rewrite firstn_all. symmetry. apply firstn_all2. lia.
Qed.

Lemma index_some_in {A : Type} (l : list A) (i : Z) (v : A) :
  Js.index l i = Some v -> In v l.
Proof.
  unfold Js.index. destruct (i <? 0); [discriminate|]. apply nth_error_In.
Qed.

Lemma index_in_range {A : Type} (l : list A) (i : Z) :
  0 <= i < Js.length l ->
  exists v, Js.index l i = Some v /\ nth_error l (Z.to_nat i) = Some v.
Proof.
  intros [H0 Hlt]. unfold Js.index.
  replace (i <? 0) with false by (symmetry; apply Z.ltb_ge; lia).
  destruct (nth_error l (Z.to_nat i)) as [v|] eqn:E.
  - exists v. split; reflexivity.
  - apply nth_error_None in E. unfold Js.length in Hlt. lia.
Qed.

Lemma index_last {A : Type} (l : list A) (v : A) :
  Js.index (Js.push l v) (Js.length l) = Some v.
Proof.
  unfold Js.index, Js.push, Js.length.
  replace (Z.of_nat (List.length l) <? 0) with false
    by (symmetry; apply Z.ltb_ge; lia).
  rewrite Nat2Z.id, nth_error_app2 by lia.
  now rewrite Nat.sub_diag.
Qed.

Lemma index_firstn_push {A : Type} (l : list A) (n : nat) (v : A) (j : Z) :
  0 <= j < Z.of_nat n -> (n <= List.length l)%nat ->
  Js.index (Js.push (firstn n l) v) j = Js.index l j.
Proof.
  intros [H0 Hlt] Hn. unfold Js.index, Js.push.
  replace (j <? 0) with false by (symmetry; apply Z.ltb_ge; lia).
  rewrite nth_error_app1 by (rewrite length_firstn; lia).
  rewrite nth_error_firstn.
  destruct (Nat.ltb_spec (Z.to_nat j) n); [reflexivity | lia].
Qed.

(** ** History manager *)

(** What [addImageToHistory] writes, whatever render it closed over. *)
Lemma addImageToHistory_history (seen s : AppState) (v : File) :
  history (addImageToHistory seen v s)
  = Js.push (Js.slice (history seen) 0 (historyIndex seen + 1)) v.
Proof. reflexivity. Qed.

Lemma addImageToHistory_index (seen s : AppState) (v : File) :
  historyIndex (addImageToHistory seen v s)
  = Js.length (Js.slice (history seen) 0 (historyIndex seen + 1)).
Proof.
  unfold addImageToHistory; simpl. rewrite length_push. lia.
Qed.

Lemma addImageToHistory_overlays (seen s : AppState) (v : File) :
  assetOverlays (addImageToHistory seen v s) = assetOverlays s.
Proof. reflexivity. Qed.

Lemma cursorOk_addImageToHistory (seen s : AppState) (v : File) :
  cursorOk (addImageToHistory seen v s).
Proof.
  right. rewrite addImageToHistory_index, addImageToHistory_history.
  rewrite length_push.
  pose proof (length_nonneg (Js.slice (history seen) 0 (historyIndex seen + 1))).
  lia.
Qed.

Lemma cursorOk_initial : cursorOk initialState.
Proof. left. split; reflexivity. Qed.

Lemma cursorOk_same (s s' : AppState) :
  history s' = history s -> historyIndex s' = historyIndex s ->
  cursorOk s -> cursorOk s'.
Proof. unfold cursorOk. intros -> ->. tauto. Qed.

Lemma cursorOk_single (s : AppState) (v : File) :
  history s = [v] -> historyIndex s = 0 -> cursorOk s.
Proof. intros Hh Hi. right. rewrite Hh, Hi. unfold Js.length. simpl. lia. Qed.

Lemma cursorOk_handleImageUpload (s : AppState) (f : File) :
  cursorOk (handleImageUpload f s).
Proof. now apply cursorOk_single with f. Qed.

Lemma cursorOk_handleUndo (s : AppState) :
  cursorOk s -> cursorOk (handleUndo s).
Proof.
  unfold handleUndo, canUndo. intro H.
  destruct (0 <? historyIndex s) eqn:E; [|exact H].
  apply Z.ltb_lt in E. destruct H as [[_ Hi] | Hr]; [lia|].
  right. simpl. lia.
Qed.

Lemma cursorOk_handleRedo (s : AppState) :
  cursorOk s -> cursorOk (handleRedo s).
Proof.
  unfold handleRedo, canRedo. intro H.
  destruct (historyIndex s <? Js.length (history s) - 1) eqn:E; [|exact H].
  apply Z.ltb_lt in E. destruct H as [[Hh Hi] | Hr].
  - rewrite Hh in E. unfold Js.length in E. simpl in E. lia.
  - right. simpl. lia.
Qed.

Lemma cursorOk_handleReset (s : AppState) :
  cursorOk s -> cursorOk (handleReset s).
Proof.
  unfold handleReset. intro H.
  destruct (0 <? Js.length (history s)) eqn:E; [|exact H].
  apply Z.ltb_lt in E. right. simpl. lia.
Qed.

Lemma cursorOk_handleUploadNew (s : AppState) : cursorOk (handleUploadNew s).
Proof. left. split; reflexivity. Qed.

Lemma cursorOk_loadZazuImage_resume (outcome : FetchOutcome) (s : AppState) :
  cursorOk s -> cursorOk (loadZazuImage_resume outcome s).
Proof.
  intro H. unfold loadZazuImage_resume.
  destruct outcome as [err | ok status statusText [err | bytes]];
    try destruct ok; simpl negb; cbv iota;
    first [ eapply cursorOk_single; reflexivity
          | (eapply cursorOk_same; [| | exact H]; reflexivity) ].
Qed.

Create HintDb history.

#[local] Hint Resolve cursorOk_addImageToHistory cursorOk_handleImageUpload
  cursorOk_handleUndo cursorOk_handleRedo cursorOk_handleReset
  cursorOk_handleUploadNew cursorOk_loadZazuImage_resume : history.

(** Navigation never changes the sequence. *)
Lemma navigate_history (navs : list Nav) (s : AppState) :
  history (fold_left navigate navs s) = history s.
Proof.
  revert s. induction navs as [|n navs IH]; intro s; simpl; [reflexivity|].
  rewrite IH. destruct n; simpl.
  - unfold handleUndo. now destruct (canUndo s).
  - unfold handleRedo. now destruct (canRedo s).
  - unfold handleReset. now destruct (0 <? Js.length (history s)).
Qed.

Lemma currentImage_in_history (s : AppState) (v : File) :
  currentImage s = Some v -> In v (history s).
Proof. apply index_some_in. Qed.

(** The content of [append] on a cursor inside the sequence. *)
Lemma append_spec (s : AppState) (v : File) :
  0 <= historyIndex s < Js.length (history s) ->
  history (append v s)
  = (firstn (Z.to_nat (historyIndex s + 1)) (history s) ++ [v])%list
  /\ historyIndex (append v s) = historyIndex s + 1
  /\ Js.length (history (append v s)) = historyIndex s + 2
  /\ currentImage (append v s) = Some v.
Proof.
  intros [H0 Hlt].
  assert (Hh : history (append v s)
               = Js.push (firstn (Z.to_nat (historyIndex s + 1)) (history s)) v).
  { unfold append. rewrite addImageToHistory_history, slice_prefix by lia.
    reflexivity. }
  assert (Hl : Js.length (firstn (Z.to_nat (historyIndex s + 1)) (history s))
               = historyIndex s + 1).
  { unfold Js.length in *. rewrite length_firstn. lia. }
  assert (Hi : historyIndex (append v s) = historyIndex s + 1).
  { unfold append. rewrite addImageToHistory_index, slice_prefix by lia.
    exact Hl. }
  repeat split.
  - exact Hh.
  - exact Hi.
  - rewrite Hh, length_push, Hl. lia.
  - unfold currentImage. rewrite Hh, Hi.
    pose proof (index_last (firstn (Z.to_nat (historyIndex s + 1)) (history s)) v)
      as E.
    rewrite Hl in E. exact E.
Qed.

(** The example of the specification: on [[A; B; C]] with the cursor on
    [B], appending [D] gives [[A; B; D]] with the cursor on [D]. *)
Lemma append_example (A B C D : File) (s : AppState) :
  history s = [A; B; C] -> historyIndex s = 1 ->
  history (append D s) = [A; B; D] /\ historyIndex (append D s) = 2
  /\ currentImage (append D s) = Some D.
Proof.
  intros Hh Hi.
  destruct (append_spec s D) as (H1 & H2 & _ & H4).
  { rewrite Hh, Hi. unfold Js.length. simpl. lia. }
  rewrite Hh, Hi in H1. rewrite Hi in H2. simpl in H1. auto.
Qed.

(** C1. On a history with sequence [s] and cursor [i], [0 <= i < |s|],
    appending a version [v] yields the sequence [s[0..i] ++ [v]] with the
    cursor on the new tail: the sequence has [i + 2] entries, the entries
    up to and including the old cursor are the old ones, [v] is current,
    and no version that is neither in that prefix nor [v] can become
    current again by undo, redo or reset. *)
Theorem append_truncates_after_cursor (s : AppState) (v : File) :
  0 <= historyIndex s < Js.length (history s) ->
  history (append v s)
  = (firstn (Z.to_nat (historyIndex s + 1)) (history s) ++ [v])%list
  /\ historyIndex (append v s) = historyIndex s + 1
  /\ Js.length (history (append v s)) = historyIndex s + 2
  /\ currentImage (append v s) = Some v
  /\ (forall j, 0 <= j <= historyIndex s ->
        Js.index (history (append v s)) j = Js.index (history s) j)
  /\ (forall (c : File) (navs : list Nav),
        ~ In c (firstn (Z.to_nat (historyIndex s + 1)) (history s)) ->
        c <> v ->
        currentImage (fold_left navigate navs (append v s)) <> Some c).
Proof.
  intro Hr. destruct (append_spec s v Hr) as (H1 & H2 & H3 & H4).
  repeat split; try assumption.
  - intros j Hj. rewrite H1.
    apply (index_firstn_push (history s) (Z.to_nat (historyIndex s + 1)) v j).
    + lia.
    + unfold Js.length in Hr. lia.
  - intros c navs Hnot Hneq Hcur.
    apply currentImage_in_history in Hcur.
    rewrite navigate_history, H1 in Hcur.
    apply in_app_or in Hcur. destruct Hcur as [Hin | [Heq | []]].
    + now apply Hnot.
    + now apply Hneq.
Qed.

Lemma append_truncates_after_cursor_witness :
  history (append Sample.D Sample.afterUndo) = [Sample.A; Sample.B; Sample.D]
  /\ historyIndex (append Sample.D Sample.afterUndo) = 2
  /\ forall navs : list Nav,
       currentImage (fold_left navigate navs (append Sample.D Sample.afterUndo))
       <> Some Sample.C.
Proof.
  destruct (append_truncates_after_cursor Sample.afterUndo Sample.D)
    as (H1 & H2 & _ & _ & _ & H6).
  - vm_compute. split; [discriminate | reflexivity].
  - split; [exact H1 | split; [exact H2 |]].
    intro navs. apply H6.
    + simpl. intros [E | [E | []]]; discriminate E.
    + discriminate.
Defined.

(** The handlers up to their [await], and the handlers that never touch
    the history. *)

Lemma handleGenerate_keeps (s : AppState) :
  history (fst (handleGenerate s)) = history s
  /\ historyIndex (fst (handleGenerate s)) = historyIndex s
  /\ assetOverlays (fst (handleGenerate s)) = assetOverlays s.
Proof.
  unfold handleGenerate.
  destruct (currentImage s); [|now simpl].
  destruct (String.eqb (Js.trim (prompt s)) ""); [now simpl|].
  destruct (editHotspot s); now simpl.
Qed.

Lemma handleApplyFilter_keeps (p : string) (s : AppState) :
  history (fst (handleApplyFilter p s)) = history s
  /\ historyIndex (fst (handleApplyFilter p s)) = historyIndex s
  /\ assetOverlays (fst (handleApplyFilter p s)) = assetOverlays s.
Proof. unfold handleApplyFilter. destruct (currentImage s); now simpl. Qed.

Lemma handleApplyAdjustment_keeps (p : string) (s : AppState) :
  history (fst (handleApplyAdjustment p s)) = history s
  /\ historyIndex (fst (handleApplyAdjustment p s)) = historyIndex s
  /\ assetOverlays (fst (handleApplyAdjustment p s)) = assetOverlays s.
Proof. unfold handleApplyAdjustment. destruct (currentImage s); now simpl. Qed.

Lemma app_issue (call : AppState -> AppState * option Request) (w : World) :
  app (issue call w) = fst (call (app w)).
Proof.
  unfold issue. destruct (call (app w)) as [s' [r|]]; reflexivity.
Qed.

Lemma cursorOk_handleAssetSelect (asset : Asset.t) (now : Z) (token : string)
    (s : AppState) :
  cursorOk s -> cursorOk (handleAssetSelect asset now token s).
Proof.
  intro H. unfold handleAssetSelect.
  destruct (currentImage s); (eapply cursorOk_same; [| | exact H]; reflexivity).
Qed.

Lemma cursorOk_handleImageClick (edit display : Point.t) (s : AppState) :
  cursorOk s -> cursorOk (handleImageClick edit display s).
Proof.
  intro H. unfold handleImageClick.
  destruct (activeTab s); (eapply cursorOk_same; [| | exact H]; reflexivity).
Qed.

(** *** The cursor invariant over the event loop *)

Section Invariant.

Variable atob : string -> Js.thrown + string.

Lemma cursorOk_resume (r : Request) (seen : AppState) (now : Z)
    (result : Settled) (s : AppState) :
  cursorOk s -> cursorOk (resume atob r seen now result s).
Proof.
  intro H.
  destruct r; simpl;
    unfold handleGenerate_resume, handleApplyFilter_resume,
           handleApplyAdjustment_resume;
    (destruct result as [err | url];
     [ eapply cursorOk_same; [| | exact H]; reflexivity
     | match goal with
       | |- context [dataURLtoFile ?a ?u ?f] =>
           destruct (dataURLtoFile a u f) as [err | newImageFile]
       end;
       [ eapply cursorOk_same; [| | exact H]; reflexivity
       | eapply cursorOk_same;
         [| | apply (cursorOk_addImageToHistory seen s newImageFile)];
         reflexivity ] ]).
Qed.

Lemma cursorOk_step (w : World) (ev : Event) :
  cursorOk (app w) -> cursorOk (app (step atob w ev)).
Proof.
  intro H. destruct ev; simpl; auto with history;
    try (eapply cursorOk_same; [| | exact H]; reflexivity).
  - apply cursorOk_addImageToHistory.
  - rewrite app_issue. destruct (handleGenerate_keeps (app w)) as (E1 & E2 & _).
    now apply cursorOk_same with (app w).
  - rewrite app_issue.
    destruct (handleApplyFilter_keeps filterPrompt (app w)) as (E1 & E2 & _).
    now apply cursorOk_same with (app w).
  - rewrite app_issue.
    destruct (handleApplyAdjustment_keeps adjustmentPrompt (app w))
      as (E1 & E2 & _).
    now apply cursorOk_same with (app w).
  - destruct (nth_error (inFlight w) k) as [[r seen]|]; [|exact H].
    simpl. now apply cursorOk_resume.
  - now apply cursorOk_handleImageClick.
  - now apply cursorOk_handleAssetSelect.
Qed.

Lemma cursorOk_run (events : list Event) (w : World) :
  cursorOk (app w) -> cursorOk (app (run atob events w)).
Proof.
  revert w. induction events as [|ev events IH]; intros w H; simpl.
  - exact H.
  - apply IH. now apply cursorOk_step.
Qed.

End Invariant.

(** What the invariant says about the queries. *)
Lemma cursorOk_queries (s : AppState) :
  cursorOk s ->
  (historyIndex s = -1 <-> history s = [])
  /\ (history s <> [] ->
      0 <= historyIndex s <= Js.length (history s) - 1
      /\ exists v, currentImage s = Some v
                   /\ nth_error (history s) (Z.to_nat (historyIndex s)) = Some v).
Proof.
  intros [[Hh Hi] | Hr].
  - split; [tauto | congruence].
  - assert (Hne : history s <> []).
    { intro E. rewrite E in Hr. unfold Js.length in Hr. simpl in Hr. lia. }
    split.
    + split; [lia | tauto].
    + intros _. split; [exact Hr|]. apply index_in_range. lia.
Qed.

(** C2. In every state reached from the first render by any sequence of
    events (load, append, undo, redo, reset to original, upload new, and
    every other handler, remote calls settling in any order), the cursor is
    [-1] exactly when the sequence is empty, and otherwise lies in
    [[0, length-1]] with the current image the entry under the cursor;
    [canUndo] holds iff the cursor is positive and [canRedo] iff it is
    below [length-1]. *)
Theorem cursor_invariant (atob : string -> Js.thrown + string)
    (events : list Event) :
  let s := app (run atob events initialWorld) in
  (historyIndex s = -1 <-> history s = [])
  /\ (history s <> [] ->
      0 <= historyIndex s <= Js.length (history s) - 1
      /\ exists v, currentImage s = Some v
                   /\ nth_error (history s) (Z.to_nat (historyIndex s)) = Some v)
  /\ (canUndo s = true <-> historyIndex s > 0)
  /\ (canRedo s = true <-> historyIndex s < Js.length (history s) - 1).
Proof.
  intro s.
  assert (H : cursorOk s) by (apply cursorOk_run; exact cursorOk_initial).
  destruct (cursorOk_queries s H) as [H1 H2].
  repeat split; try tauto; try (apply H1); unfold canUndo, canRedo.
  - intro E. apply Z.ltb_lt in E. lia.
  - intro E. apply Z.ltb_lt. lia.
  - intro E. now apply Z.ltb_lt in E.
  - intro E. now apply Z.ltb_lt.
Qed.

(** A filter is requested on the second version, the user undoes while
    the call is in flight, and the call then resolves: the new version is
    appended to the sequence the handler had seen, and the cursor lands on
    it. *)
Example settle_after_undo :
  let png := inr "data:image/png;base64,QUJD" : Settled in
  let s :=
    app (run Sample.atob
           [Upload Sample.A; ApplyFilter "sepia"; RemoteSettled 0 1 png;
            ApplyFilter "noir"; Undo; RemoteSettled 0 2 png]
           initialWorld) in
  map file_name (history s) = ["zazu.png"; "filtered-1.png"; "filtered-2.png"]
  /\ historyIndex s = 2.
Proof. vm_compute. split; reflexivity. Qed.

(** C3. [handleReset] does nothing on an empty history; on a non-empty one,
    wherever the cursor is, it puts the cursor on 0, so that the current
    image is the first (original) version, and leaves the sequence as it
    is, so that redo is possible afterwards whenever a later version
    exists, and leads to the second entry. *)
Theorem reset_rewinds_without_truncating (s : AppState) :
  (history s = [] -> handleReset s = s)
  /\ (history s <> [] ->
      historyIndex (handleReset s) = 0
      /\ history (handleReset s) = history s
      /\ currentImage (handleReset s) = originalImage s
      /\ (exists first rest,
            history s = first :: rest
            /\ currentImage (handleReset s) = Some first)
      /\ (canRedo (handleReset s) = true <-> 1 < Js.length (history s))
      /\ (1 < Js.length (history s) ->
          historyIndex (handleRedo (handleReset s)) = 1
          /\ history (handleRedo (handleReset s)) = history s)).
Proof.
  unfold handleReset. split.
  - intros ->. reflexivity.
  - intro Hne. destruct (history s) as [|first rest] eqn:Hh; [congruence|].
    assert (E : (0 <? Js.length (first :: rest)) = true).
    { apply Z.ltb_lt. unfold Js.length. simpl. lia. }
    rewrite E. unfold canRedo, currentImage, originalImage. simpl.
    rewrite Hh. repeat split.
    + exists first, rest. split; reflexivity.
    + intro H. apply Z.ltb_lt in H. lia.
    + intro H. apply Z.ltb_lt. lia.
    + unfold handleRedo, canRedo. simpl. rewrite Hh.
      replace (0 <? Js.length (first :: rest) - 1) with true
        by (symmetry; apply Z.ltb_lt; lia).
      reflexivity.
    + unfold handleRedo, canRedo. simpl. rewrite Hh.
      replace (0 <? Js.length (first :: rest) - 1) with true
        by (symmetry; apply Z.ltb_lt; lia).
      simpl. exact Hh.
Qed.

(** ** Flattening *)

Section Flattening.

Variable loads : string -> bool.

(** One awaited [drawImage]: the context comes back as it was, with one
    more image painted when the source loads. *)
Lemma drawImage_effect (src : string) (x y w h rotation opacity : Q)
    (ctx : Context2D) :
  drawImage loads src x y w h rotation opacity ctx
  = mkCtx (fillStyle ctx) (globalAlpha ctx) (transform ctx) (saved ctx)
      (painted ctx
       ++ (if loads src
           then [Image src x y w h opacity
                   (transform ctx
                    ++ Spec.aboutCentre
                         (Spec.mkLayer src x y w h rotation opacity))]
           else []))%list.
Proof.
  unfold drawImage, Spec.aboutCentre, Js.num_neq. simpl.
  destruct (loads src).
  - destruct (Qeq_bool rotation 0); simpl.
    + rewrite app_nil_r. reflexivity.
    + unfold Ctx.restore, Ctx.drawImage, Ctx.translate, Ctx.rotate. simpl.
      rewrite <- !app_assoc. reflexivity.
  - rewrite app_nil_r. destruct ctx; reflexivity.
Qed.

Lemma drawAsset_effect (ctx : Context2D) (asset : Overlay.t) :
  transform ctx = [] ->
  drawAsset loads ctx asset
  = mkCtx (fillStyle ctx) (globalAlpha ctx) [] (saved ctx)
      (painted ctx
       ++ map Spec.paint
            (filter (fun l => loads (Spec.src l)) [Spec.ofOverlay asset]))%list.
Proof.
  intro Hu. unfold drawAsset. rewrite drawImage_effect, Hu. simpl.
  destruct (loads (Overlay.src asset)); reflexivity.
Qed.

Lemma drawAssets_effect (assets : list Overlay.t) (ctx : Context2D) :
  transform ctx = [] ->
  fold_left (drawAsset loads) assets ctx
  = mkCtx (fillStyle ctx) (globalAlpha ctx) [] (saved ctx)
      (painted ctx
       ++ map Spec.paint
            (filter (fun l => loads (Spec.src l)) (map Spec.ofOverlay assets)))%list.
Proof.
  revert ctx. induction assets as [|a assets IH]; intros ctx Hu; simpl.
  - rewrite app_nil_r. rewrite <- Hu.
    destruct ctx; reflexivity.
  - rewrite IH by (rewrite drawAsset_effect by exact Hu; reflexivity).
    rewrite drawAsset_effect by exact Hu. simpl.
    destruct (loads (Overlay.src a)); simpl;
      rewrite <- ?app_assoc, ?app_nil_r; reflexivity.
Qed.

(** The stacking order plays no part in what is drawn. *)
Lemma drawAssets_restacked (keep : Overlay.t -> bool) (z : Overlay.t -> Z)
    (overlays : list Overlay.t) (ctx : Context2D) :
  (forall o k, keep (withZIndex k o) = keep o) ->
  fold_left (drawAsset loads)
    (filter keep (map (fun o => withZIndex (z o) o) overlays)) ctx
  = fold_left (drawAsset loads) (filter keep overlays) ctx.
Proof.
  intro Hkeep. revert ctx.
  induction overlays as [|o overlays IH]; intro ctx; simpl; [reflexivity|].
  rewrite Hkeep. destruct (keep o); simpl; apply IH.
Qed.

Lemma drawComposition_restacked (z : Overlay.t -> Z)
    (overlays : list Overlay.t) (url : option string) (ctx : Context2D) :
  drawComposition loads (map (fun o => withZIndex (z o) o) overlays) url ctx
  = drawComposition loads overlays url ctx.
Proof.
  unfold drawComposition, backgroundAssets, foregroundAssets.
  rewrite !drawAssets_restacked by reflexivity. reflexivity.
Qed.

Lemma handleDownload_painted (overlays : list Overlay.t) (url : string) :
  url <> "" ->
  painted (handleDownload loads overlays (Some url))
  = Spec.flattened loads overlays url.
Proof.
  intro Hurl.
  assert (Ht : Js.truthy (Some url) = true).
  { simpl. destruct (String.eqb_spec url ""); [contradiction | reflexivity]. }
  unfold handleDownload, drawComposition. rewrite Ht.
  unfold backgroundAssets, foregroundAssets.
  rewrite (drawAssets_effect (filter isBackground overlays)) by reflexivity.
  rewrite drawImage_effect. simpl transform. simpl fillStyle.
  rewrite drawAssets_effect by reflexivity.
  unfold Spec.flattened, Spec.order. simpl painted.
  rewrite !filter_app, !map_app. simpl.
  change (Spec.src (Spec.base url)) with url.
  destruct (loads url); simpl; rewrite <- ?app_assoc; reflexivity.
Qed.

End Flattening.

(** C4. For every overlay set and base image, flattening paints, over the
    white canvas, in one fixed order: every background overlay at its
    position and size with its rotation and opacity; then the base image,
    a square of side 380 centred horizontally and touching the bottom edge
    of the 400 by 400 canvas; then every other overlay in the order of the
    set, each rotated about the centre of its own box and with its own
    opacity (an image that fails to load is left out).  The stacking order
    stored on the overlays has no influence. *)
Theorem flatten_fixed_order (loads : string -> bool)
    (overlays : list Overlay.t) (url : string) :
  url <> "" ->
  painted (handleDownload loads overlays (Some url))
  = Spec.flattened loads overlays url
  /\ (forall z : Overlay.t -> Z,
        handleDownload loads (map (fun o => withZIndex (z o) o) overlays)
                       (Some url)
        = handleDownload loads overlays (Some url))
  /\ (Spec.x (Spec.base url) + Spec.width (Spec.base url) / 2
      == canvas_width / 2)%Q
  /\ (Spec.y (Spec.base url) + Spec.height (Spec.base url)
      == canvas_height)%Q.
Proof.
  intro Hurl. split; [now apply handleDownload_painted|].
  split; [|split; reflexivity].
  intro z. unfold handleDownload. apply drawComposition_restacked.
Qed.

Lemma flatten_fixed_order_witness :
  painted (handleDownload Sample.allLoad
             (assetOverlays Sample.withCharacter) (Some "blob:zazu"))
  = Spec.flattened Sample.allLoad
      (assetOverlays Sample.withCharacter) "blob:zazu".
Proof.
  apply (flatten_fixed_order Sample.allLoad
           (assetOverlays Sample.withCharacter) "blob:zazu").
  discriminate.
Defined.

(** C5, evaluated on the code.  A background and then a character are
    selected; the character overlay gets stacking order 500, and the
    flattening paints it after the base image, not before it. *)
Lemma character_painted_after_base :
  map Overlay.zIndex (assetOverlays Sample.withCharacter) = [1; 500]
  /\ painted (handleDownload Sample.allLoad
                (assetOverlays Sample.withCharacter) (Some "blob:zazu"))
     = [FillRect "#ffffff" 0 0 400 400;
        Image "/assets/backgrounds/green.jpg" 0 0 400 400 1 [];
        Image "blob:zazu" zazuX zazuY 380 380 1 [];
        Image "/assets/characters/rigby.png" 50 50 100 100 1 []].
Proof. split; reflexivity. Qed.

(** ** Overlays *)

(** C6. With a base image loaded, [handleAssetSelect] adds one overlay to
    the end of the set, with rotation 0 and opacity 1; for a background
    asset it sits at (0,0), has the size of the canvas and stacking order
    1; for an eyes, hats or accessories asset it sits at (50,50), measures
    100 by 100 and has stacking order 1000. *)
Theorem asset_defaults (asset : Asset.t) (now : Z) (token : string)
    (s : AppState) :
  currentImage s <> None ->
  exists o : Overlay.t,
    assetOverlays (handleAssetSelect asset now token s)
    = (assetOverlays s ++ [o])%list
    /\ Overlay.src o = Asset.path asset
    /\ Overlay.category o = Asset.category asset
    /\ Overlay.rotation o = 0%Q
    /\ Overlay.opacity o = 1%Q
    /\ (Asset.category asset = "backgrounds" ->
        Overlay.x o = 0%Q /\ Overlay.y o = 0%Q
        /\ Overlay.width o = canvas_width /\ Overlay.height o = canvas_height
        /\ Overlay.zIndex o = 1)
    /\ (Asset.category asset = "eyes" \/ Asset.category asset = "hats"
        \/ Asset.category asset = "accessories" ->
        Overlay.x o = 50%Q /\ Overlay.y o = 50%Q
        /\ Overlay.width o = 100%Q /\ Overlay.height o = 100%Q
        /\ Overlay.zIndex o = 1000).
Proof.
  intro Himg. unfold handleAssetSelect.
  destruct (currentImage s) as [img|]; [|congruence].
  eexists. split; [reflexivity|]. simpl.
  do 4 (split; [reflexivity|]).
  split.
  - intros ->. repeat split.
  - intros [-> | [-> | ->]]; repeat split.
Qed.

Lemma asset_defaults_witness :
  exists o : Overlay.t,
    assetOverlays (handleAssetSelect Sample.background 1 "aaaaaaaaa" Sample.loaded)
    = [o]
    /\ Overlay.rotation o = 0%Q /\ Overlay.opacity o = 1%Q
    /\ Overlay.x o = 0%Q /\ Overlay.y o = 0%Q
    /\ Overlay.width o = canvas_width /\ Overlay.height o = canvas_height
    /\ Overlay.zIndex o = 1.
Proof.
  destruct (asset_defaults Sample.background 1 "aaaaaaaaa" Sample.loaded)
    as (o & H1 & _ & _ & H4 & H5 & H6 & _).
  - discriminate.
  - exists o. split; [exact H1|].
    split; [exact H4|]. split; [exact H5|]. apply H6. reflexivity.
Defined.

(** C10. With no current image, [handleAssetSelect] leaves the overlay set
    as it is and only sets the error message; hence whenever it changes
    the overlay set, a current image exists. *)
Theorem no_overlay_without_image (asset : Asset.t) (now : Z) (token : string)
    (s : AppState) :
  (currentImage s = None ->
   handleAssetSelect asset now token s
   = setError (Some "No image loaded to add assets to.") s
   /\ assetOverlays (handleAssetSelect asset now token s) = assetOverlays s
   /\ error (handleAssetSelect asset now token s)
      = Some "No image loaded to add assets to.")
  /\ (assetOverlays (handleAssetSelect asset now token s) <> assetOverlays s ->
      exists image, currentImage s = Some image).
Proof.
  unfold handleAssetSelect. destruct (currentImage s) as [image|]; split.
  - discriminate.
  - intros _. now exists image.
  - intros _. repeat split.
  - intro H. now contradiction H.
Qed.

(** C8, as the code has it.  [handleUploadNew] empties the sequence and
    puts the cursor on [-1], so that no image is current; the overlay set
    is left as it was. *)
Theorem upload_new_clears_history_only (s : AppState) :
  history (handleUploadNew s) = []
  /\ historyIndex (handleUploadNew s) = -1
  /\ currentImage (handleUploadNew s) = None
  /\ assetOverlays (handleUploadNew s) = assetOverlays s.
Proof. repeat split. Qed.

(** C8 fails as stated: a hat added before [handleUploadNew] is still in
    the overlay set after it. *)
Lemma upload_new_keeps_overlays :
  history (handleUploadNew Sample.withHat) = []
  /\ assetOverlays (handleUploadNew Sample.withHat) <> [].
Proof. split; [reflexivity | discriminate]. Qed.

(** ** Remote failures *)

Section Failures.

Variable atob : string -> Js.thrown + string.

Lemma resume_failed (r : Request) (seen : AppState) (now : Z)
    (result : Settled) (err : Js.thrown) (s : AppState) :
  failure atob r now result = Some err ->
  resume atob r seen now result s
  = (s |> setError
            (Some (failurePrefix r
                   ++ Js.message_or "An unknown error occurred." err))
       |> setIsLoading false).
Proof.
  unfold failure. intro H.
  destruct r; cbn [resume filePrefix failurePrefix] in *;
    unfold handleGenerate_resume, handleApplyFilter_resume,
           handleApplyAdjustment_resume;
    (destruct result as [e | url];
     [ injection H as ->; reflexivity
     | match goal with
       | |- context [dataURLtoFile ?a ?u ?f] =>
           destruct (dataURLtoFile a u f) as [e | newImageFile]
       end;
       [ injection H as ->; reflexivity | discriminate H ] ]).
Qed.

(** The other way round: an attempt that does not fail appends. *)
Lemma resume_succeeded (r : Request) (seen : AppState) (now : Z)
    (result : Settled) (s : AppState) :
  failure atob r now result = None ->
  exists newImageFile,
    history (resume atob r seen now result s)
    = Js.push (Js.slice (history seen) 0 (historyIndex seen + 1)) newImageFile.
Proof.
  unfold failure. intro H.
  destruct r; cbn [resume filePrefix failurePrefix] in *;
    unfold handleGenerate_resume, handleApplyFilter_resume,
           handleApplyAdjustment_resume;
    (destruct result as [e | url]; [discriminate H|];
     match goal with
     | |- context [dataURLtoFile ?a ?u ?f] =>
         destruct (dataURLtoFile a u f) as [e | newImageFile]
     end; [discriminate H | now exists newImageFile]).
Qed.

End Failures.

(** C9. A remote edit, filter or adjustment that fails (its promise
    rejects, or its result does not decode) appends no version: when the
    handler resumes, the state is the one it finds with the error message
    set and the busy flag cleared, so the sequence, the cursor and the
    overlay set are untouched; the part of each handler that runs before
    the call leaves them untouched as well. *)
Theorem failed_remote_call_appends_nothing
    (atob : string -> Js.thrown + string) (r : Request) (seen : AppState)
    (now : Z) (result : Settled) (err : Js.thrown) (s : AppState) :
  failure atob r now result = Some err ->
  let s' := resume atob r seen now result s in
  s' = (s |> setError
               (Some (failurePrefix r
                      ++ Js.message_or "An unknown error occurred." err))
          |> setIsLoading false)
  /\ history s' = history s
  /\ historyIndex s' = historyIndex s
  /\ assetOverlays s' = assetOverlays s
  /\ error s'
     = Some (failurePrefix r ++ Js.message_or "An unknown error occurred." err)
  /\ (history (fst (handleGenerate s)) = history s
      /\ historyIndex (fst (handleGenerate s)) = historyIndex s
      /\ assetOverlays (fst (handleGenerate s)) = assetOverlays s)
  /\ (forall p,
        history (fst (handleApplyFilter p s)) = history s
        /\ historyIndex (fst (handleApplyFilter p s)) = historyIndex s
        /\ assetOverlays (fst (handleApplyFilter p s)) = assetOverlays s)
  /\ (forall p,
        history (fst (handleApplyAdjustment p s)) = history s
        /\ historyIndex (fst (handleApplyAdjustment p s)) = historyIndex s
        /\ assetOverlays (fst (handleApplyAdjustment p s)) = assetOverlays s).
Proof.
  intros H s'. subst s'. rewrite (resume_failed atob r seen now result err s H).
  split; [reflexivity|]. do 4 (split; [reflexivity|]).
  split; [apply handleGenerate_keeps|].
  split; intro p; [apply handleApplyFilter_keeps | apply handleApplyAdjustment_keeps].
Qed.

Lemma failed_remote_call_appends_nothing_witness :
  let result : Settled := inr "not a data URL" in
  let s' := resume Sample.atob (FilterRequest Sample.A "sepia")
              Sample.withHat 7 result Sample.withHat in
  history s' = [Sample.A] /\ historyIndex s' = 0
  /\ assetOverlays s' = assetOverlays Sample.withHat
  /\ error s' = Some "Failed to apply the filter. Invalid data URL".
Proof.
  destruct (failed_remote_call_appends_nothing Sample.atob
              (FilterRequest Sample.A "sepia") Sample.withHat 7
              (inr "not a data URL") (Js.ErrorObject "Invalid data URL")
              Sample.withHat)
    as (_ & H2 & H3 & H4 & H5 & _).
  - reflexivity.
  - repeat split; assumption.
Defined.

(** ** Drag and resize *)

(** Looking up among the overlays that pass a filter commutes with an
    update that changes neither the lookup key nor the filter. *)
Lemma find_filter_map {A : Type} (p q : A -> bool) (f : A -> A) (l : list A) :
  (forall a, p (f a) = p a) -> (forall a, q (f a) = q a) ->
  find p (filter q (map f l)) = option_map f (find p (filter q l)).
Proof.
  intros Hp Hq. induction l as [|a l IH]; simpl; [reflexivity|].
  rewrite Hq. destruct (q a); simpl; [|exact IH].
  rewrite Hp. destruct (p a); [reflexivity | exact IH].
Qed.

Lemma isTarget_id (d : DragState) (o o' : Overlay.t) :
  Overlay.id o' = Overlay.id o -> isTarget d o' = isTarget d o.
Proof. unfold isTarget. now intros ->. Qed.

(** An update of position or size, applied by [handleUpdateOverlay], shows
    on the overlay the component had looked up. *)
Lemma updated_target (d : DragState) (s : AppState) (o : Overlay.t)
    (x y width height : option Q) :
  let updates :=
    Partial.mk None None None None x y width height None None None in
  find (isTarget d) (foregroundAssets (assetOverlays s)) = Some o ->
  find (isTarget d)
       (foregroundAssets
          (assetOverlays (handleUpdateOverlay (Overlay.id o) updates s)))
  = Some (Partial.spread o updates).
Proof.
  intros updates Hfind. unfold handleUpdateOverlay, foregroundAssets. simpl.
  rewrite find_filter_map.
  - unfold foregroundAssets in Hfind. rewrite Hfind. simpl.
    now rewrite String.eqb_refl.
  - intro a. destruct (String.eqb (Overlay.id a) (Overlay.id o));
      [apply isTarget_id|]; reflexivity.
  - intro a. destruct (String.eqb (Overlay.id a) (Overlay.id o)); reflexivity.
Qed.

Lemma clamp_low (hi v : Q) : (0 <= Js.max 0 (Js.min hi v))%Q.
Proof. apply Q.le_max_l. Qed.

Lemma clamp_high (hi v : Q) : (0 <= hi -> Js.max 0 (Js.min hi v) <= hi)%Q.
Proof. intro H. apply Q.max_lub; [exact H | apply Q.le_min_l]. Qed.

Lemma clamp_held (hi v : Q) : (hi < 0 -> Js.max 0 (Js.min hi v) == 0)%Q.
Proof.
  intro H. unfold Js.max, Js.min. apply Q.max_l.
  apply Q.min_le_iff. left. lra.
Qed.

Lemma floor_20 (v : Q) : (20 <= Js.max 20 v)%Q.
Proof. apply Q.le_max_l. Qed.

(** C7, as the code has it.  On a pointer move with a drag or a resize
    active on an overlay [o] of the component, inside a container [rect]:
    a resize leaves the overlay at least 20 wide and 20 high; a drag
    leaves its size alone, keeps [0 <= x] and [0 <= y], and keeps
    [x <= rect.width - width] when the overlay is no wider than the
    container, [y <= rect.height - height] when it is no higher; an
    overlay wider than the container is held at [x = 0], one higher than
    the container at [y = 0]. *)
Theorem pointer_move_bounds (rect : Rect.t) (e : MouseEvent) (d : DragState)
    (s : AppState) (o : Overlay.t) :
  find (isTarget d) (foregroundAssets (assetOverlays s)) = Some o ->
  Js.truthy (dragging d) || Js.truthy (resizing d) = true ->
  exists o' : Overlay.t,
    find (isTarget d)
         (foregroundAssets
            (assetOverlays (snd (pointerMove (Some rect) e (d, s)))))
    = Some o'
    /\ if Js.truthy (dragging d) then
         Overlay.width o' = Overlay.width o
         /\ Overlay.height o' = Overlay.height o
         /\ (0 <= Overlay.x o')%Q
         /\ (0 <= Overlay.y o')%Q
         /\ (Overlay.width o <= Rect.width rect ->
             Overlay.x o' <= Rect.width rect - Overlay.width o')%Q
         /\ (Overlay.height o <= Rect.height rect ->
             Overlay.y o' <= Rect.height rect - Overlay.height o')%Q
         /\ (Rect.width rect < Overlay.width o -> Overlay.x o' == 0)%Q
         /\ (Rect.height rect < Overlay.height o -> Overlay.y o' == 0)%Q
       else
         (20 <= Overlay.width o')%Q /\ (20 <= Overlay.height o')%Q.
Proof.
  intros Hfind Hactive. unfold pointerMove, handleMouseMove.
  replace (negb (Js.truthy (dragging d)) && negb (Js.truthy (resizing d)))
    with false
    by (destruct (Js.truthy (dragging d)), (Js.truthy (resizing d));
        simpl in *; congruence).
  fold (isTarget d). unfold foregroundAssets in Hfind |- * at 2.
  rewrite Hfind.
  destruct (Js.truthy (dragging d)) eqn:Hd.
  - eexists. split; [cbn [snd]; apply updated_target; exact Hfind|].
    cbn [Partial.spread Partial.pick Partial.x Partial.y Partial.width
         Partial.height Overlay.x Overlay.y Overlay.width Overlay.height].
    split; [reflexivity|]. split; [reflexivity|].
    split; [apply clamp_low|]. split; [apply clamp_low|].
    split; [intro H; apply clamp_high; lra|].
    split; [intro H; apply clamp_high; lra|].
    split; intro H; apply clamp_held; lra.
  - simpl in Hactive. rewrite Hactive.
    eexists. split; [cbn [snd]; apply updated_target; exact Hfind|].
    cbn [Partial.spread Partial.pick Partial.x Partial.y Partial.width
         Partial.height Overlay.x Overlay.y Overlay.width Overlay.height].
    split; apply floor_20.
Qed.

Lemma pointer_move_bounds_witness :
  exists o' : Overlay.t,
    find (isTarget (fst Sample.hatHeld))
         (foregroundAssets
            (assetOverlays
               (snd (pointerMove (Some Sample.container) (mkMouse 500 60)
                                 Sample.hatHeld))))
    = Some o'
    /\ (0 <= Overlay.x o')%Q
    /\ (Overlay.x o' <= Rect.width Sample.container - Overlay.width o')%Q.
Proof.
  destruct (pointer_move_bounds Sample.container (mkMouse 500 60)
              (fst Sample.hatHeld) (snd Sample.hatHeld)
              (Overlay.mk Sample.hatId "/assets/hats/beanie.png" "Beanie"
                          "hats" 50 50 100 100 0 1 1000))
    as (o' & Hfind & Hbounds).
  - reflexivity.
  - reflexivity.
  - exists o'. split; [exact Hfind|].
    destruct Hbounds as (_ & _ & Hx & _ & Hw & _).
    split; [exact Hx|]. apply Hw. vm_compute. discriminate.
Defined.

(** C7 fails as stated.  The hat is resized up to the right edge, dragged
    to the left edge and resized again, which makes it 410 wide in a
    container of 400; the next drag step puts it at [x = 0], which is
    above [rect.width - width = -10]. *)
Lemma drag_past_container :
  exists o' : Overlay.t,
    find (isTarget (fst Sample.grownHatHeld))
         (foregroundAssets
            (assetOverlays
               (snd (pointerMove (Some Sample.container) (mkMouse 70 60)
                                 Sample.grownHatHeld))))
    = Some o'
    /\ Js.truthy (dragging (fst Sample.grownHatHeld)) = true
    /\ Overlay.width o' = 410%Q
    /\ ~ (Overlay.x o' <= Rect.width Sample.container - Overlay.width o')%Q.
Proof.
  exists (Overlay.mk Sample.hatId "/assets/hats/beanie.png" "Beanie" "hats"
                     0 50 410 100 0 1 1000).
  vm_compute. repeat split. intro H. apply H. reflexivity.
Qed.

(** * Further properties of the code *)

(** ** Moving along the history *)

Lemma handleUndo_history (s : AppState) : history (handleUndo s) = history s.
Proof. unfold handleUndo. now destruct (canUndo s). Qed.

Lemma handleRedo_history (s : AppState) : history (handleRedo s) = history s.
Proof. unfold handleRedo. now destruct (canRedo s). Qed.

Lemma handleUndo_index (s : AppState) :
  historyIndex (handleUndo s)
  = if 0 <? historyIndex s then historyIndex s - 1 else historyIndex s.
Proof. unfold handleUndo, canUndo. now destruct (0 <? historyIndex s). Qed.

Lemma handleRedo_index (s : AppState) :
  historyIndex (handleRedo s)
  = if historyIndex s <? Js.length (history s) - 1
    then historyIndex s + 1 else historyIndex s.
Proof.
  unfold handleRedo, canRedo.
  now destruct (historyIndex s <? Js.length (history s) - 1).
Qed.

Lemma currentImage_same (s s' : AppState) :
  history s' = history s -> historyIndex s' = historyIndex s ->
  currentImage s' = currentImage s.
Proof. unfold currentImage. now intros -> ->. Qed.

Lemma undo_redo_index (s : AppState) :
  0 <= historyIndex s <= Js.length (history s) - 1 ->
  (canUndo s = true ->
   historyIndex (handleRedo (handleUndo s)) = historyIndex s)
  /\ (canRedo s = true ->
      historyIndex (handleUndo (handleRedo s)) = historyIndex s).
Proof.
  intro Hr. split; intro Hcan.
  - rewrite handleRedo_index, handleUndo_history, handleUndo_index.
    unfold canUndo in Hcan. rewrite Hcan. apply Z.ltb_lt in Hcan.
    replace (historyIndex s - 1 <? Js.length (history s) - 1) with true
      by (symmetry; apply Z.ltb_lt; lia).
    lia.
  - rewrite handleUndo_index, handleRedo_index.
    unfold canRedo in Hcan. rewrite Hcan.
    replace (0 <? historyIndex s + 1) with true
      by (symmetry; apply Z.ltb_lt; lia).
    lia.
Qed.

(** X1. With the cursor inside the sequence, redo undoes an undo and undo
    undoes a redo: the sequence, the cursor and the current image come
    back as they were. *)
Theorem undo_redo_round_trip (s : AppState) :
  0 <= historyIndex s <= Js.length (history s) - 1 ->
  (canUndo s = true ->
   history (handleRedo (handleUndo s)) = history s
   /\ historyIndex (handleRedo (handleUndo s)) = historyIndex s
   /\ currentImage (handleRedo (handleUndo s)) = currentImage s)
  /\ (canRedo s = true ->
      history (handleUndo (handleRedo s)) = history s
      /\ historyIndex (handleUndo (handleRedo s)) = historyIndex s
      /\ currentImage (handleUndo (handleRedo s)) = currentImage s).
Proof.
  intro Hr. destruct (undo_redo_index s Hr) as [Hu Hd].
  split; intro Hcan.
  - assert (Hh : history (handleRedo (handleUndo s)) = history s)
      by now rewrite handleRedo_history, handleUndo_history.
    specialize (Hu Hcan). auto using currentImage_same.
  - assert (Hh : history (handleUndo (handleRedo s)) = history s)
      by now rewrite handleUndo_history, handleRedo_history.
    specialize (Hd Hcan). auto using currentImage_same.
Qed.

Lemma undo_redo_round_trip_witness :
  currentImage (handleRedo (handleUndo Sample.afterUndo)) = Some Sample.B
  /\ currentImage (handleUndo (handleRedo Sample.afterUndo)) = Some Sample.B.
Proof.
  destruct (undo_redo_round_trip Sample.afterUndo) as [Hu Hr].
  - vm_compute. split; discriminate.
  - split.
    + destruct Hu as (_ & _ & H); [reflexivity | exact H].
    + destruct Hr as (_ & _ & H); [reflexivity | exact H].
Defined.

(** X2. Pressing undo [n] times moves the cursor back by [n] but never
    below the first version, pressing redo [n] times moves it forward by
    [n] but never past the last; neither changes the sequence. *)
Theorem repeated_undo_redo_clamp (n : nat) (s : AppState) :
  0 <= historyIndex s <= Js.length (history s) - 1 ->
  historyIndex (Nat.iter n handleUndo s) = Z.max 0 (historyIndex s - Z.of_nat n)
  /\ history (Nat.iter n handleUndo s) = history s
  /\ historyIndex (Nat.iter n handleRedo s)
     = Z.min (Js.length (history s) - 1) (historyIndex s + Z.of_nat n)
  /\ history (Nat.iter n handleRedo s) = history s.
Proof.
  intro Hr. induction n as [|n IH].
  - simpl. repeat split; lia.
  - destruct IH as (Hu & Hhu & Hd & Hhd).
    change (Nat.iter (S n) handleUndo s)
      with (handleUndo (Nat.iter n handleUndo s)).
    change (Nat.iter (S n) handleRedo s)
      with (handleRedo (Nat.iter n handleRedo s)).
    rewrite handleUndo_index, handleUndo_history, Hu.
    rewrite handleRedo_index, handleRedo_history, Hhd, Hd.
    repeat split; try assumption.
    + destruct (Z.ltb_spec 0 (Z.max 0 (historyIndex s - Z.of_nat n))); lia.
    + destruct (Z.ltb_spec
                  (Z.min (Js.length (history s) - 1)
                         (historyIndex s + Z.of_nat n))
                  (Js.length (history s) - 1)); lia.
Qed.

Lemma repeated_undo_redo_clamp_witness :
  historyIndex (Nat.iter 5 handleUndo Sample.afterUndo) = 0
  /\ historyIndex (Nat.iter 5 handleRedo Sample.afterUndo) = 2.
Proof.
  destruct (repeated_undo_redo_clamp 5 Sample.afterUndo) as (H1 & _ & H3 & _).
  - vm_compute. split; discriminate.
  - split; [exact H1 | exact H3].
Defined.

(** X3. After an edit on a cursor inside the sequence, undo is possible
    and redo is not; undo shows the image that was current before the
    edit, and redo after it shows the new version again. *)
Theorem append_then_undo (s : AppState) (v : File) :
  0 <= historyIndex s < Js.length (history s) ->
  canUndo (append v s) = true
  /\ canRedo (append v s) = false
  /\ currentImage (handleUndo (append v s)) = currentImage s
  /\ currentImage (handleRedo (handleUndo (append v s))) = Some v.
Proof.
  intro Hr. destruct (append_spec s v) as (H1 & H2 & H3 & H4); [lia|].
  assert (Hu : canUndo (append v s) = true).
  { unfold canUndo. rewrite H2. apply Z.ltb_lt. lia. }
  assert (Hd : canRedo (append v s) = false).
  { unfold canRedo. rewrite H2, H3. apply Z.ltb_ge. lia. }
  split; [exact Hu|]. split; [exact Hd|]. split.
  - unfold currentImage.
    rewrite handleUndo_history, handleUndo_index.
    unfold canUndo in Hu. rewrite Hu, H2, H1.
    replace (historyIndex s + 1 - 1) with (historyIndex s) by lia.
    apply (index_firstn_push (history s) (Z.to_nat (historyIndex s + 1)) v).
    + lia.
    + unfold Js.length in Hr. lia.
  - destruct (undo_redo_index (append v s)) as [Hrt _]; [lia|].
    rewrite (currentImage_same (append v s) (handleRedo (handleUndo (append v s)))).
    + exact H4.
    + now rewrite handleRedo_history, handleUndo_history.
    + exact (Hrt Hu).
Qed.

Lemma append_then_undo_witness :
  currentImage (handleUndo (append Sample.D Sample.afterUndo)) = Some Sample.B
  /\ currentImage (handleRedo (handleUndo (append Sample.D Sample.afterUndo)))
     = Some Sample.D.
Proof.
  destruct (append_then_undo Sample.afterUndo Sample.D) as (_ & _ & H3 & H4).
  - vm_compute. split; [discriminate | reflexivity].
  - split; [exact H3 | exact H4].
Defined.

Lemma navigate_one_history (s : AppState) (n : Nav) :
  history (navigate s n) = history s.
Proof. exact (navigate_history [n] s). Qed.

Lemma navigate_in_range (s : AppState) (n : Nav) :
  0 <= historyIndex s < Js.length (history s) ->
  0 <= historyIndex (navigate s n) < Js.length (history (navigate s n)).
Proof.
  intro Hr. destruct n; simpl.
  - rewrite handleUndo_history, handleUndo_index.
    destruct (Z.ltb_spec 0 (historyIndex s)); lia.
  - rewrite handleRedo_history, handleRedo_index.
    destruct (Z.ltb_spec (historyIndex s) (Js.length (history s) - 1)); lia.
  - unfold handleReset.
    destruct (Z.ltb_spec 0 (Js.length (history s))); simpl; lia.
Qed.

Lemma edit_keeps_original (s : AppState) (op : File + Nav) :
  0 <= historyIndex s < Js.length (history s) ->
  0 <= historyIndex (edit s op) < Js.length (history (edit s op))
  /\ originalImage (edit s op) = originalImage s.
Proof.
  intro Hr. destruct op as [v | n]; cbn [edit].
  - destruct (append_spec s v Hr) as (H1 & H2 & H3 & _).
    split; [lia|]. unfold originalImage. rewrite H1.
    apply (index_firstn_push (history s) (Z.to_nat (historyIndex s + 1)) v 0).
    + lia.
    + unfold Js.length in Hr. lia.
  - split; [now apply navigate_in_range|].
    unfold originalImage. now rewrite navigate_one_history.
Qed.

(** X4. Once an image is loaded, no sequence of edits, undos, redos and
    resets changes the original image (the one the compare button shows),
    and there is always a current image. *)
Theorem original_survives_edits (ops : list (File + Nav)) (s : AppState) :
  0 <= historyIndex s < Js.length (history s) ->
  originalImage (fold_left edit ops s) = originalImage s
  /\ exists v, currentImage (fold_left edit ops s) = Some v.
Proof.
  revert s. induction ops as [|op ops IH]; intros s Hr; simpl.
  - split; [reflexivity|].
    destruct (index_in_range (history s) (historyIndex s) Hr) as (v & Hv & _).
    now exists v.
  - destruct (edit_keeps_original s op Hr) as [Hr' Ho].
    destruct (IH (edit s op) Hr') as [H1 H2].
    split; [now rewrite H1 | exact H2].
Qed.

Lemma original_survives_edits_witness :
  originalImage
    (fold_left edit [inr NavUndo; inl Sample.D; inr NavRedo; inr NavReset]
               Sample.afterUndo)
  = Some Sample.A.
Proof.
  destruct (original_survives_edits
              [inr NavUndo; inl Sample.D; inr NavRedo; inr NavReset]
              Sample.afterUndo) as [H _].
  - vm_compute. split; [discriminate | reflexivity].
  - exact H.
Defined.

(** X5. Choosing files loads the first one only: it becomes the single
    version, whatever the history was, and stays current under any undo,
    redo or reset; the overlays and the prompt are kept.  No file list, or
    an empty one, changes nothing. *)
Theorem file_select_loads_first (file : File) (others : list File)
    (navs : list Nav) (s : AppState) :
  let s' := handleFileSelect (Some (file :: others)) s in
  history (fold_left navigate navs s') = [file]
  /\ currentImage (fold_left navigate navs s') = Some file
  /\ originalImage (fold_left navigate navs s') = Some file
  /\ canUndo s' = false /\ canRedo s' = false
  /\ assetOverlays s' = assetOverlays s /\ prompt s' = prompt s
  /\ handleFileSelect None s = s
  /\ handleFileSelect (Some []) s = s.
Proof.
  intro s'.
  assert (Hh : history (fold_left navigate navs s') = [file])
    by now rewrite navigate_history.
  assert (Hi : historyIndex (fold_left navigate navs s') = 0).
  { assert (G : forall t, history t = [file] -> historyIndex t = 0 ->
                          historyIndex (fold_left navigate navs t) = 0).
    { clear Hh.
      induction navs as [|n navs IH]; intros t Ht Hti; simpl; [exact Hti|].
      apply IH.
      - now rewrite navigate_one_history.
      - destruct n; simpl.
        + rewrite handleUndo_index, Hti. reflexivity.
        + rewrite handleRedo_index, Hti, Ht. reflexivity.
        + unfold handleReset. rewrite Ht. reflexivity. }
    apply G; reflexivity. }
  unfold currentImage, originalImage. rewrite Hh, Hi.
  repeat split.
Qed.

(** ** The overlay set *)

Lemma filter_all {A : Type} (p : A -> bool) (l : list A) :
  (forall a, In a l -> p a = true) -> filter p l = l.
Proof.
  induction l as [|a l IH]; intro H; simpl; [reflexivity|].
  rewrite (H a) by now left. f_equal. apply IH. intros b Hb. apply H. now right.
Qed.

Lemma map_unchanged {A : Type} (f : A -> A) (l : list A) :
  (forall a, In a l -> f a = a) -> map f l = l.
Proof.
  induction l as [|a l IH]; intro H; simpl; [reflexivity|].
  rewrite (H a) by now left. f_equal. apply IH. intros b Hb. apply H. now right.
Qed.

Lemma setAssetOverlays_same (s : AppState) :
  setAssetOverlays (assetOverlays s) s = s.
Proof. now destruct s. Qed.

(** X6. Removing by identity deletes exactly the overlays with that
    identity; with no such overlay the state is left as it is (nothing is
    raised), and removing twice is removing once. *)
Theorem remove_overlay_by_id (id : string) (s : AppState) :
  let s' := handleRemoveOverlay id s in
  (forall o, In o (assetOverlays s')
             <-> In o (assetOverlays s) /\ Overlay.id o <> id)
  /\ ((forall o, In o (assetOverlays s) -> Overlay.id o <> id) -> s' = s)
  /\ handleRemoveOverlay id s' = s'
  /\ history s' = history s /\ historyIndex s' = historyIndex s.
Proof.
  intro s'. subst s'. unfold handleRemoveOverlay.
  assert (Hin : forall o,
             In o (filter (fun overlay => negb (String.eqb (Overlay.id overlay) id))
                          (assetOverlays s))
             <-> In o (assetOverlays s) /\ Overlay.id o <> id).
  { intro o. rewrite filter_In.
    destruct (String.eqb_spec (Overlay.id o) id); simpl; intuition congruence. }
  split; [exact Hin|]. split; [|split; [|split; reflexivity]].
  - intro Hnone. simpl. rewrite filter_all.
    + apply setAssetOverlays_same.
    + intros a Ha. destruct (String.eqb_spec (Overlay.id a) id); [|reflexivity].
      now elim (Hnone a Ha).
  - unfold setAssetOverlays. simpl. f_equal.
    apply filter_all. intros a Ha. apply Hin in Ha.
    destruct Ha as [_ Hne].
    destruct (String.eqb_spec (Overlay.id a) id); [contradiction | reflexivity].
Qed.

Lemma spread_id (o : Overlay.t) (u : Partial.t) :
  Partial.id u = None -> Overlay.id (Partial.spread o u) = Overlay.id o.
Proof. intro H. simpl. now rewrite H. Qed.

Lemma spread_twice (o : Overlay.t) (u : Partial.t) :
  Partial.spread (Partial.spread o u) u = Partial.spread o u.
Proof.
  destruct u as [i sr nm ct ux uy uw uh ur uo uz]. unfold Partial.spread. simpl.
  destruct i, sr, nm, ct, ux, uy, uw, uh, ur, uo, uz; reflexivity.
Qed.

(** X7. An update that carries no identity keeps the identities of the set
    in their order, leaves every overlay with another identity in the set,
    leaves the state as it is when no overlay has the identity (nothing is
    raised), and applied twice is applied once. *)
Theorem update_overlay_by_id (id : string) (u : Partial.t) (s : AppState) :
  Partial.id u = None ->
  let s' := handleUpdateOverlay id u s in
  map Overlay.id (assetOverlays s') = map Overlay.id (assetOverlays s)
  /\ (forall o, In o (assetOverlays s) -> Overlay.id o <> id ->
                In o (assetOverlays s'))
  /\ ((forall o, In o (assetOverlays s) -> Overlay.id o <> id) -> s' = s)
  /\ handleUpdateOverlay id u s' = s'
  /\ history s' = history s /\ historyIndex s' = historyIndex s.
Proof.
  intros Hid s'. subst s'. unfold handleUpdateOverlay. simpl.
  split; [|split; [|split; [|split; [|split; reflexivity]]]].
  - rewrite map_map. apply map_ext. intro o.
    destruct (String.eqb (Overlay.id o) id); [now apply spread_id | reflexivity].
  - intros o Ho Hne. apply in_map_iff. exists o. split; [|exact Ho].
    destruct (String.eqb_spec (Overlay.id o) id); [contradiction | reflexivity].
  - intro Hnone. rewrite map_unchanged.
    + apply setAssetOverlays_same.
    + intros a Ha. destruct (String.eqb_spec (Overlay.id a) id); [|reflexivity].
      now elim (Hnone a Ha).
  - unfold setAssetOverlays. simpl. f_equal.
    rewrite map_map. apply map_ext. intro o.
    destruct (String.eqb (Overlay.id o) id) eqn:E.
    + rewrite spread_id by exact Hid. rewrite E. apply spread_twice.
    + rewrite E. reflexivity.
Qed.

Lemma update_overlay_by_id_witness :
  handleUpdateOverlay "asset-0-missing"
    (Partial.mk None None None None (Some 7%Q) None None None None None None)
    Sample.withHat
  = Sample.withHat.
Proof.
  destruct (update_overlay_by_id "asset-0-missing"
              (Partial.mk None None None None (Some 7%Q) None None None None
                          None None)
              Sample.withHat) as (_ & _ & H & _).
  - reflexivity.
  - apply H. intros o Ho. vm_compute in Ho.
    destruct Ho as [<- | []]. discriminate.
Defined.

(** ** What the editor can do to an overlay *)

Lemma spread_ok (o : Overlay.t) (u : Partial.t) :
  overlayOk o -> updateOk u -> overlayOk (Partial.spread o u).
Proof.
  intros (Hx & Hy & Hw & Hh & Ho1 & Ho2 & Hr & Hz)
         (_ & Ux & Uy & Uw & Uh & Uo & Ur & Uz).
  unfold overlayOk. simpl. rewrite Ur, Uz. simpl.
  destruct (Partial.x u) as [vx|]; destruct (Partial.y u) as [vy|];
    destruct (Partial.width u) as [vw|]; destruct (Partial.height u) as [vh|];
    destruct (Partial.opacity u) as [vo|]; simpl;
    repeat split;
    try assumption;
    try (now apply Ux); try (now apply Uy); try (now apply Uw);
    try (now apply Uh); try (now apply (Uo vo)).
Qed.

Lemma handleUpdateOverlay_ok (id : string) (u : Partial.t) (s : AppState) :
  updateOk u -> Forall overlayOk (assetOverlays s) ->
  Forall overlayOk (assetOverlays (handleUpdateOverlay id u s)).
Proof.
  intros Hu Hall. unfold handleUpdateOverlay. simpl.
  rewrite Forall_forall in *. intros o' Ho'.
  apply in_map_iff in Ho'. destruct Ho' as (o & <- & Ho).
  destruct (String.eqb (Overlay.id o) id); [apply spread_ok|]; auto.
Qed.

(** Goals about the fields an update carries. *)
Ltac carried :=
  repeat split; try discriminate; intros;
  repeat match goal with
         | H : Some _ = Some _ |- _ => inversion H; subst; clear H
         | H : None = Some _ |- _ => discriminate H
         end.

Lemma handleMouseMove_ok (overlays : list Overlay.t) (rect : option Rect.t)
    (e : MouseEvent) (d d' : DragState) (id : string) (u : Partial.t) :
  handleMouseMove overlays rect e d = (d', Some (id, u)) -> updateOk u.
Proof.
  unfold handleMouseMove.
  destruct (negb (Js.truthy (dragging d)) && negb (Js.truthy (resizing d)));
    [discriminate|].
  destruct rect as [rect|]; [|discriminate].
  destruct (find _ overlays) as [overlay|]; [|discriminate].
  destruct (Js.truthy (dragging d)); [|destruct (Js.truthy (resizing d))];
    intro H; inversion H; subst; clear H; unfold updateOk; simpl;
    carried; first [apply clamp_low | apply floor_20].
Qed.

Lemma opacityMinus_ok (o : Overlay.t) :
  overlayOk o -> updateOk (snd (opacityMinus o)).
Proof.
  intros (_ & _ & _ & _ & Ho1 & Ho2 & _).
  unfold updateOk, opacityMinus. simpl.
  carried.
  - apply Q.le_max_l.
  - apply Q.max_lub; lra.
Qed.

Lemma opacityPlus_ok (o : Overlay.t) :
  overlayOk o -> updateOk (snd (opacityPlus o)).
Proof.
  intros (_ & _ & _ & _ & Ho1 & Ho2 & _).
  unfold updateOk, opacityPlus. simpl.
  carried.
  - apply Q.min_glb; lra.
  - apply Q.le_min_l.
Qed.

Lemma handleAssetSelect_ok (asset : Asset.t) (now : Z) (token : string)
    (s : AppState) :
  Forall overlayOk (assetOverlays s) ->
  Forall overlayOk (assetOverlays (handleAssetSelect asset now token s)).
Proof.
  intro Hall. unfold handleAssetSelect.
  destruct (currentImage s); [|exact Hall]. simpl.
  apply Forall_app. split; [exact Hall|]. constructor; [|constructor].
  unfold overlayOk. simpl.
  destruct (String.eqb (Asset.category asset) "backgrounds");
    destruct (String.eqb (Asset.category asset) "eyes"
              || String.eqb (Asset.category asset) "hats"
              || String.eqb (Asset.category asset) "accessories");
    destruct (String.eqb (Asset.category asset) "characters");
    repeat split; try discriminate; auto.
Qed.

Lemma control_in (k : nat) (s : AppState) (o : Overlay.t) :
  control k s = Some o -> In o (assetOverlays s).
Proof.
  unfold control, foregroundAssets.
  destruct (isEditingAssets s); [|discriminate].
  intro H. apply nth_error_In in H. now apply filter_In in H.
Qed.

Lemma gesture_ok (ds : DragState * AppState) (g : Gesture) :
  Forall overlayOk (assetOverlays (snd ds)) ->
  Forall overlayOk (assetOverlays (snd (gesture ds g))).
Proof.
  destruct ds as [d s]. simpl. intro Hall.
  assert (Hctl : forall k o, control k s = Some o -> overlayOk o).
  { intros k o Hk. apply control_in in Hk.
    rewrite Forall_forall in Hall. now apply Hall. }
  destruct g; simpl.
  - now apply handleAssetSelect_ok.
  - destruct (control k s); exact Hall.
  - destruct (handleMouseMove (foregroundAssets (assetOverlays s)) rect e d)
      as [d' [[id u]|]] eqn:E; simpl; [|exact Hall].
    apply handleUpdateOverlay_ok; [|exact Hall].
    eapply handleMouseMove_ok; exact E.
  - exact Hall.
  - destruct (control k s); simpl; [|exact Hall].
    unfold handleRemoveOverlay. simpl.
    rewrite Forall_forall in *. intros o Ho. apply filter_In in Ho.
    now apply Hall.
  - destruct (control k s) as [o|] eqn:E; simpl; [|exact Hall].
    apply handleUpdateOverlay_ok; [|exact Hall].
    apply opacityMinus_ok. now apply (Hctl k).
  - destruct (control k s) as [o|] eqn:E; simpl; [|exact Hall].
    apply handleUpdateOverlay_ok; [|exact Hall].
    apply opacityPlus_ok. now apply (Hctl k).
  - destruct (onAssetTab s && (0 <? Js.length (assetOverlays s)));
      simpl; [constructor | exact Hall].
Qed.

(** X8. Whatever the user does in the overlay editor (picking assets,
    pressing the handles, moving and releasing the pointer, the opacity
    buttons, remove, clear all), starting from overlays made by the
    editor, every overlay keeps a position of at least 0 on both axes, a
    size of at least 20 by 20, an opacity between 0.1 and 1, rotation 0
    and a stacking order of 1, 500 or 1000. *)
Theorem editor_keeps_overlays_well_formed (gestures : list Gesture)
    (d : DragState) (s : AppState) :
  Forall overlayOk (assetOverlays s) ->
  Forall overlayOk (assetOverlays (snd (fold_left gesture gestures (d, s)))).
Proof.
  intro Hall.
  change (assetOverlays s) with (assetOverlays (snd (d, s))) in Hall.
  generalize dependent (d, s). clear d s.
  induction gestures as [|g gestures IH]; intros ds Hall; simpl.
  - exact Hall.
  - apply IH. now apply gesture_ok.
Qed.

Lemma editor_keeps_overlays_well_formed_witness :
  Forall overlayOk
    (assetOverlays
       (snd (fold_left gesture
               [PickAsset Sample.beanie 3 "ccccccccc";
                PressMinus 0;
                PressHandle (Some Sample.container) (mkMouse 140 140) 0 resize;
                MovePointer (Some Sample.container) (mkMouse 10 10);
                ReleasePointer]
               (initialDrag, Sample.loaded)))).
Proof.
  apply (editor_keeps_overlays_well_formed _ initialDrag Sample.loaded).
  constructor.
Defined.

(** ** Which events write where *)

Lemma resume_overlays (atob : string -> Js.thrown + string) (r : Request)
    (seen : AppState) (now : Z) (result : Settled) (s : AppState) :
  assetOverlays (resume atob r seen now result s) = assetOverlays s.
Proof.
  destruct (failure atob r now result) as [err|] eqn:E.
  - now rewrite (resume_failed atob r seen now result err s E).
  - unfold failure in E.
    destruct r; cbn [resume filePrefix] in *;
      unfold handleGenerate_resume, handleApplyFilter_resume,
             handleApplyAdjustment_resume;
      (destruct result as [e | url]; [discriminate E|];
       match goal with
       | |- context [dataURLtoFile ?a ?u ?f] =>
           destruct (dataURLtoFile a u f) as [e | newImageFile]
       end; [discriminate E | reflexivity]).
Qed.

Lemma step_overlays (atob : string -> Js.thrown + string) (w : World)
    (ev : Event) :
  touchesOverlays ev = false ->
  assetOverlays (app (step atob w ev)) = assetOverlays (app w).
Proof.
  destruct ev; simpl; intro H; try discriminate H; try reflexivity.
  - unfold loadZazuImage_resume.
    destruct outcome as [err | ok status statusText [err | bytes]];
      try destruct ok; reflexivity.
  - unfold handleUndo. now destruct (canUndo (app w)).
  - unfold handleRedo. now destruct (canRedo (app w)).
  - unfold handleReset. now destruct (0 <? Js.length (history (app w))).
  - rewrite app_issue. apply handleGenerate_keeps.
  - rewrite app_issue. apply handleApplyFilter_keeps.
  - rewrite app_issue. apply handleApplyAdjustment_keeps.
  - destruct (nth_error (inFlight w) k) as [[r seen]|]; [|reflexivity].
    simpl. apply resume_overlays.
  - unfold handleImageClick. now destruct (activeTab (app w)).
Qed.

Lemma step_history (atob : string -> Js.thrown + string) (w : World)
    (ev : Event) :
  touchesHistory ev = false ->
  history (app (step atob w ev)) = history (app w).
Proof.
  destruct ev; simpl; intro H; try discriminate H; try reflexivity.
  - apply handleUndo_history.
  - apply handleRedo_history.
  - unfold handleReset. now destruct (0 <? Js.length (history (app w))).
  - rewrite app_issue. apply handleGenerate_keeps.
  - rewrite app_issue. apply handleApplyFilter_keeps.
  - rewrite app_issue. apply handleApplyAdjustment_keeps.
  - unfold handleImageClick. now destruct (activeTab (app w)).
  - unfold handleAssetSelect. now destruct (currentImage (app w)).
Qed.

(** X9. Over any run of events, the overlay set is written only by asset
    selection, overlay update, overlay removal and clear all: uploads,
    edits, undo, redo, reset and upload-new leave it as it is.  The
    sequence of versions is written only by an upload, the default load,
    an append, upload-new and a remote call that settles: overlay events,
    undo, redo and reset leave it as it is. *)
Theorem events_write_their_own_state (atob : string -> Js.thrown + string)
    (events : list Event) (w : World) :
  (forallb (fun ev => negb (touchesOverlays ev)) events = true ->
   assetOverlays (app (run atob events w)) = assetOverlays (app w))
  /\ (forallb (fun ev => negb (touchesHistory ev)) events = true ->
      history (app (run atob events w)) = history (app w)).
Proof.
  revert w. induction events as [|ev events IH]; intro w.
  - split; reflexivity.
  - change (run atob (ev :: events) w) with (run atob events (step atob w ev)).
    cbn [forallb].
    destruct (IH (step atob w ev)) as [IH1 IH2]. split; intro H;
      apply andb_prop in H; destruct H as [Hev Hrest];
      apply negb_true_iff in Hev.
    + rewrite IH1 by exact Hrest. now apply step_overlays.
    + rewrite IH2 by exact Hrest. now apply step_history.
Qed.

(** ** Decoding a data URL *)

Lemma split_lacks (c : ascii) (s : string) :
  lacks c s = true -> Js.split c s = [s].
Proof.
  induction s as [|a s IH]; simpl; intro H; [reflexivity|].
  apply andb_prop in H. destruct H as [Ha Hs].
  apply negb_true_iff in Ha. rewrite Ha, (IH Hs). reflexivity.
Qed.

Lemma split_at_first (c : ascii) (h rest : string) :
  lacks c h = true -> Js.split c (h ++ String c rest) = h :: Js.split c rest.
Proof.
  induction h as [|a h IH]; simpl; intro H.
  - now rewrite Ascii.eqb_refl.
  - apply andb_prop in H. destruct H as [Ha Hh].
    apply negb_true_iff in Ha. rewrite Ha, (IH Hh). reflexivity.
Qed.

Lemma up_to_semicolon_found (m rest : string) :
  lacks ";" m = true -> oneLine m = true ->
  DataUrl.up_to_semicolon (m ++ String ";" rest) = Some m.
Proof.
  induction m as [|a m IH]; simpl; intros H1 H2; [reflexivity|].
  apply andb_prop in H1. destruct H1 as [Ha Hm].
  apply andb_prop in H2. destruct H2 as [Hl Ho].
  apply negb_true_iff in Ha. apply negb_true_iff in Hl.
  rewrite Ha, Hl, (IH Hm Ho). reflexivity.
Qed.

Lemma mime_match_lacks (h : string) :
  lacks ":" h = true -> DataUrl.mime_match h = None.
Proof.
  induction h as [|a h IH]; simpl; intro H; [reflexivity|].
  apply andb_prop in H. destruct H as [Ha Hh].
  apply negb_true_iff in Ha. rewrite Ha. now apply IH.
Qed.

Lemma get_nth_error (s : string) (k : nat) :
  String.get k s = nth_error (list_ascii_of_string s) k.
Proof.
  revert k. induction s as [|a s IH]; intros [|k]; simpl; auto.
Qed.

Lemma length_chars (s : string) :
  List.length (list_ascii_of_string s) = String.length s.
Proof. induction s as [|a s IH]; simpl; auto. Qed.

Lemma store_length (k : nat) (v : ascii) (arr : list ascii) :
  List.length (DataUrl.store k v arr) = List.length arr.
Proof.
  revert k. induction arr as [|c arr IH]; intros [|k]; simpl; auto.
Qed.

Lemma store_nth_error (k i : nat) (v : ascii) (arr : list ascii) :
  (k < List.length arr)%nat ->
  nth_error (DataUrl.store k v arr) i
  = if Nat.eqb i k then Some v else nth_error arr i.
Proof.
  revert k i. induction arr as [|c arr IH]; intros k i Hk; simpl in Hk; [lia|].
  destruct k as [|k]; destruct i as [|i]; simpl; try reflexivity.
  apply IH. lia.
Qed.

(** The copy loop fills the array with the characters of the string. *)
Lemma copy_loop_fills (bstr : string) (n : nat) (arr : list ascii) :
  List.length arr = String.length bstr ->
  (n <= String.length bstr)%nat ->
  (forall i, (n <= i)%nat ->
             nth_error arr i = nth_error (list_ascii_of_string bstr) i) ->
  DataUrl.copy_loop n bstr arr = list_ascii_of_string bstr.
Proof.
  revert arr. induction n as [|k IH]; intros arr Hlen Hn Hrest; simpl.
  - apply nth_error_ext. intro i. apply Hrest. lia.
  - apply IH.
    + now rewrite store_length.
    + lia.
    + intros i Hi. rewrite store_nth_error by lia.
      destruct (Nat.eqb_spec i k) as [-> | Hne].
      * unfold DataUrl.charCodeAt. rewrite get_nth_error.
        destruct (nth_error (list_ascii_of_string bstr) k) eqn:E; [reflexivity|].
        apply nth_error_None in E. rewrite length_chars in E. lia.
      * apply Hrest. lia.
Qed.

Lemma copy_loop_all (bstr : string) :
  DataUrl.copy_loop (String.length bstr) bstr
    (repeat Ascii.zero (String.length bstr))
  = list_ascii_of_string bstr.
Proof.
  apply copy_loop_fills.
  - apply repeat_length.
  - lia.
  - intros i Hi.
    rewrite (proj2 (nth_error_None _ _)) by (rewrite repeat_length; lia).
    symmetry. apply nth_error_None. rewrite length_chars. lia.
Qed.

Section DecodingFacts.

Variable atob : string -> Js.thrown + string.

(** A header, one comma and a payload. *)
Lemma dataURLtoFile_two_parts (header payload filename : string) :
  lacks "," header = true -> lacks "," payload = true ->
  dataURLtoFile atob (header ++ "," ++ payload) filename
  = match atob payload with
    | inl e => inl e
    | inr bstr =>
        inr (newFile (list_ascii_of_string bstr) filename
               match DataUrl.mime_match header with
               | Some m => if String.eqb m "" then "image/png" else m
               | None => "image/png"
               end)
    end.
Proof.
  intros Hh Hp. unfold dataURLtoFile.
  change (header ++ "," ++ payload) with (header ++ String "," payload).
  rewrite (split_at_first "," header payload Hh), (split_lacks "," payload Hp).
  simpl. destruct (atob payload) as [e | bstr]; [reflexivity|].
  now rewrite copy_loop_all.
Qed.

End DecodingFacts.

(** A type of printable characters without capitals is kept by [new File]. *)
Lemma normalize_plain (t : string) :
  plain t = true -> FileType.normalize t = t.
Proof.
  intro H. unfold FileType.normalize.
  assert (G : FileType.allPrintable t = true /\ FileType.lowercase t = t).
  { induction t as [|c r IH]; [split; reflexivity|].
    cbn [plain FileType.allPrintable FileType.lowercase] in *.
    unfold FileType.printable, FileType.lower. cbv zeta in *.
    apply andb_prop in H. destruct H as [Hc Hr].
    apply andb_prop in Hc. destruct Hc as [Hp Hu].
    destruct (IH Hr) as [IH1 IH2].
    apply negb_true_iff in Hu. rewrite Hp, Hu, IH1, IH2. split; reflexivity. }
  destruct G as [-> ->]. reflexivity.
Qed.

(** X10. A data URL [data:<mime>;base64,<payload>] with a non-empty MIME
    type decodes to the file whose bytes are the characters of the base64
    decoding of the payload, whose name is the one asked for and whose
    type is the MIME type as [new File] keeps it: in ASCII lower case, or
    empty when it has a character outside of U+0020..U+007E; a MIME type
    of printable characters without capitals is kept as it is.  What the
    decoder throws is passed on. *)
Theorem data_url_decodes (atob : string -> Js.thrown + string)
    (mime payload filename : string) :
  mime <> "" ->
  lacks ";" mime = true -> lacks "," mime = true -> oneLine mime = true ->
  lacks "," payload = true ->
  dataURLtoFile atob ("data:" ++ mime ++ ";base64," ++ payload) filename
  = match atob payload with
    | inl e => inl e
    | inr bstr =>
        inr (mkFile (list_ascii_of_string bstr) filename
                    (if FileType.allPrintable mime
                     then FileType.lowercase mime else ""))
    end
  /\ (plain mime = true ->
      dataURLtoFile atob ("data:" ++ mime ++ ";base64," ++ payload) filename
      = match atob payload with
        | inl e => inl e
        | inr bstr => inr (mkFile (list_ascii_of_string bstr) filename mime)
        end).
Proof.
  intros Hne Hsemi Hcomma Hline Hp.
  assert (Hh : lacks "," ("data:" ++ mime ++ ";base64") = true).
  { simpl. clear - Hcomma. induction mime as [|a m IH]; simpl in *.
    - reflexivity.
    - apply andb_prop in Hcomma. destruct Hcomma as [Ha Hm].
      rewrite Ha. simpl. now apply IH. }
  assert (E : "data:" ++ mime ++ ";base64," ++ payload
              = ("data:" ++ mime ++ ";base64") ++ "," ++ payload).
  { simpl. do 5 f_equal. clear. induction mime as [|a m IH]; simpl.
    - reflexivity.
    - now rewrite IH. }
  rewrite E, dataURLtoFile_two_parts by assumption.
  assert (Hm : DataUrl.mime_match ("data:" ++ mime ++ ";base64") = Some mime).
  { simpl. change (mime ++ ";base64") with (mime ++ String ";" "base64").
    now rewrite up_to_semicolon_found. }
  rewrite Hm.
  destruct (String.eqb_spec mime "") as [|_]; [contradiction|].
  unfold newFile. fold (FileType.normalize mime).
  split; [reflexivity|].
  intro Hplain. now rewrite (normalize_plain mime Hplain).
Qed.

Lemma data_url_decodes_witness :
  dataURLtoFile Sample.atob "data:IMAGE/WebP;base64,QUJD" "edited-1.png"
  = inr (mkFile ["Q"; "U"; "J"; "D"]%char "edited-1.png" "image/webp").
Proof.
  destruct (data_url_decodes Sample.atob "IMAGE/WebP" "QUJD" "edited-1.png")
    as [H _].
  - discriminate.
  - reflexivity.
  - reflexivity.
  - reflexivity.
  - reflexivity.
  - exact H.
Defined.

(** X11. A string without a comma is refused as an invalid data URL,
    whatever the decoder would do; a header without a colon gives the type
    [image/png]; and everything from a second comma on is ignored. *)
Theorem data_url_edge_cases (atob : string -> Js.thrown + string)
    (filename : string) :
  (forall dataurl, lacks "," dataurl = true ->
     dataURLtoFile atob dataurl filename
     = inl (Js.ErrorObject "Invalid data URL"))
  /\ (forall header payload bstr,
        lacks "," header = true -> lacks ":" header = true ->
        lacks "," payload = true -> atob payload = inr bstr ->
        dataURLtoFile atob (header ++ "," ++ payload) filename
        = inr (mkFile (list_ascii_of_string bstr) filename "image/png"))
  /\ (forall header payload rest,
        lacks "," header = true -> lacks "," payload = true ->
        dataURLtoFile atob (header ++ "," ++ payload ++ "," ++ rest) filename
        = dataURLtoFile atob (header ++ "," ++ payload) filename).
Proof.
  split; [|split].
  - intros dataurl H. unfold dataURLtoFile. now rewrite split_lacks.
  - intros header payload bstr Hh Hc Hp Ha.
    rewrite dataURLtoFile_two_parts by assumption.
    now rewrite Ha, mime_match_lacks.
  - intros header payload rest Hh Hp.
    rewrite (dataURLtoFile_two_parts atob header payload filename Hh Hp).
    unfold dataURLtoFile.
    change (header ++ "," ++ payload ++ "," ++ rest)
      with (header ++ String "," (payload ++ String "," rest)).
    rewrite (split_at_first "," header _ Hh), (split_at_first "," payload _ Hp).
    replace (Js.length (header :: payload :: Js.split "," rest) <? 2)
      with false.
    + destruct (atob payload) as [e | bstr]; [reflexivity|].
      now rewrite copy_loop_all.
    + symmetry. apply Z.ltb_ge. unfold Js.length. simpl length. lia.
Qed.

(** ** Asking for an edit *)

Lemma trim_start_blank (s : string) :
  blank s = true -> Js.trim_start s = "".
Proof.
  induction s as [|a s IH]; simpl; intro H; [reflexivity|].
  apply andb_prop in H. destruct H as [Ha Hs]. rewrite Ha. now apply IH.
Qed.

Lemma trim_start_keeps (s : string) :
  blank s = false -> blank (Js.trim_start s) = false.
Proof.
  induction s as [|a s IH]; simpl; intro H; [discriminate|].
  destruct (Js.is_space a) eqn:E; simpl in *.
  - now apply IH.
  - now rewrite E.
Qed.

Lemma blank_rev (acc s : string) :
  blank (Js.rev_string acc s) = blank acc && blank s.
Proof.
  revert acc. induction s as [|a s IH]; intro acc; simpl.
  - now rewrite andb_true_r.
  - rewrite IH. simpl. destruct (Js.is_space a), (blank acc), (blank s); reflexivity.
Qed.

(** [trim] leaves nothing exactly on the strings of white space. *)
Lemma trim_empty (s : string) : Js.trim s = "" <-> blank s = true.
Proof.
  unfold Js.trim. split.
  - intro H. destruct (blank s) eqn:E; [reflexivity|].
    assert (B : blank (Js.rev_string ""
                         (Js.trim_start (Js.rev_string "" (Js.trim_start s))))
                = false).
    { rewrite blank_rev. simpl. apply trim_start_keeps.
      rewrite blank_rev. simpl. now apply trim_start_keeps. }
    rewrite H in B. discriminate B.
  - intro H. now rewrite (trim_start_blank s H).
Qed.

(** X12. [handleGenerate] issues a remote call exactly when there is a
    current image, a prompt that is not only white space and a hotspot;
    the request then carries these three and the state is only marked
    busy with the error cleared.  Otherwise nothing but the error message
    changes, the missing image being reported before the missing prompt. *)
Theorem generate_validation (s : AppState) :
  (snd (handleGenerate s) = None
   <-> currentImage s = None \/ blank (prompt s) = true \/ editHotspot s = None)
  /\ (forall r, snd (handleGenerate s) = Some r ->
        exists image hotspot,
          currentImage s = Some image /\ editHotspot s = Some hotspot
          /\ r = EditRequest image (prompt s) hotspot
          /\ fst (handleGenerate s) = (s |> setIsLoading true |> setError None))
  /\ (snd (handleGenerate s) = None ->
      exists msg, fst (handleGenerate s) = setError (Some msg) s)
  /\ (currentImage s = None ->
      error (fst (handleGenerate s)) = Some "No image loaded to edit.")
  /\ (currentImage s <> None -> blank (prompt s) = true ->
      error (fst (handleGenerate s))
      = Some "Please enter a description for your edit.").
Proof.
  unfold handleGenerate.
  destruct (currentImage s) as [image|] eqn:Ei.
  2:{ repeat split; try tauto; try discriminate; try congruence.
      intros _. eexists. reflexivity. }
  destruct (String.eqb_spec (Js.trim (prompt s)) "") as [Et | Et].
  - apply trim_empty in Et.
    repeat split; try tauto; try discriminate; try congruence.
    intros _. eexists. reflexivity.
  - assert (Hb : blank (prompt s) = false).
    { destruct (blank (prompt s)) eqn:E; [|reflexivity].
      now apply trim_empty in E. }
    destruct (editHotspot s) as [hotspot|] eqn:Eh; simpl.
    + repeat split; try discriminate; try congruence.
      * intros [H | [H | H]]; congruence.
      * intros r Hr. injection Hr as <-. exists image, hotspot. auto.
    + repeat split; try tauto; try discriminate; try congruence.
      intros _. eexists. reflexivity.
Qed.

(** ** A remote call that succeeds *)

Lemma dataURLtoFile_name (atob : string -> Js.thrown + string)
    (dataurl filename : string) (f : File) :
  dataURLtoFile atob dataurl filename = inr f -> file_name f = filename.
Proof.
  unfold dataURLtoFile.
  destruct (Js.length (Js.split "," dataurl) <? 2); [discriminate|].
  destruct (Js.split "," dataurl) as [|arr0 [|arr1 rest]]; try discriminate.
  destruct (atob arr1) as [e | bstr]; [discriminate|].
  intro H. injection H as <-. reflexivity.
Qed.

(** X13. When a remote call settles with an image that decodes, the new
    version, named after the handler and the time, is appended to the
    history the handler had seen when it was called, not to the one on
    the page now: sequence and cursor are those of an append on the seen
    state.  The overlays and the error are left alone, the busy flag is
    cleared, and a point edit also clears the hotspot. *)
Theorem settled_call_appends_to_seen (atob : string -> Js.thrown + string)
    (r : Request) (seen : AppState) (now : Z) (result : Settled)
    (s : AppState) :
  failure atob r now result = None ->
  let s' := resume atob r seen now result s in
  exists f : File,
    file_name f = filePrefix r ++ Js.show now ++ ".png"
    /\ history s' = history (append f seen)
    /\ historyIndex s' = historyIndex (append f seen)
    /\ currentImage s' = Some f
    /\ assetOverlays s' = assetOverlays s
    /\ error s' = error s
    /\ isLoading s' = false
    /\ match r with
       | EditRequest _ _ _ => editHotspot s' = None /\ displayHotspot s' = None
       | _ => editHotspot s' = editHotspot s
              /\ displayHotspot s' = displayHotspot s
       end.
Proof.
  intros H s'. subst s'. unfold failure in H.
  destruct result as [e | url]; [discriminate H|].
  destruct (dataURLtoFile atob url (filePrefix r ++ Js.show now ++ ".png"))
    as [e | f] eqn:E; [discriminate H|].
  exists f. split; [now apply dataURLtoFile_name in E|].
  assert (Hcur : forall t : AppState,
             history t = history (append f seen) ->
             historyIndex t = historyIndex (append f seen) ->
             currentImage t = Some f).
  { intros t Ht Hti. unfold currentImage. rewrite Ht, Hti.
    unfold append. rewrite addImageToHistory_history, addImageToHistory_index.
    apply index_last. }
  destruct r; cbn [resume filePrefix] in *;
    unfold handleGenerate_resume, handleApplyFilter_resume,
           handleApplyAdjustment_resume;
    rewrite E; repeat split; apply Hcur; reflexivity.
Qed.

Lemma settled_call_appends_to_seen_witness :
  let png : Settled := inr "data:image/png;base64,QUJD" in
  let s' := resume Sample.atob (FilterRequest Sample.C "noir")
              Case.atTail 9 png (handleUndo Case.atTail) in
  map file_name (history s')
  = ["zazu.png"; "edited-1.png"; "filtered-2.png"; "filtered-9.png"]
  /\ historyIndex s' = 3.
Proof.
  destruct (settled_call_appends_to_seen Sample.atob
              (FilterRequest Sample.C "noir") Case.atTail 9
              (inr "data:image/png;base64,QUJD") (handleUndo Case.atTail))
    as (f & Hn & Hh & Hi & _).
  - reflexivity.
  - split.
    + rewrite Hh. vm_compute. f_equal. f_equal. f_equal. f_equal.
      exact Hn.
    + rewrite Hi. reflexivity.
Defined.

(** ** Flattening when images are missing *)

Section Robustness.

Variable loads : string -> bool.

Lemma drawAsset_failed (ctx : Context2D) (o : Overlay.t) :
  loads (Overlay.src o) = false -> drawAsset loads ctx o = ctx.
Proof. intro H. unfold drawAsset, drawImage. now rewrite H. Qed.

Lemma drawAssets_without_failed (keep : Overlay.t -> bool)
    (overlays : list Overlay.t) (ctx : Context2D) :
  fold_left (drawAsset loads)
    (filter keep (filter (fun o => loads (Overlay.src o)) overlays)) ctx
  = fold_left (drawAsset loads) (filter keep overlays) ctx.
Proof.
  revert ctx. induction overlays as [|o overlays IH]; intro ctx; simpl;
    [reflexivity|].
  destruct (loads (Overlay.src o)) eqn:E; simpl.
  - destruct (keep o); simpl; apply IH.
  - destruct (keep o); simpl; [|apply IH].
    rewrite (drawAsset_failed ctx o E). apply IH.
Qed.

Lemma drawComposition_frame (overlays : list Overlay.t) (url : option string)
    (ctx : Context2D) :
  transform ctx = [] ->
  let ctx' := drawComposition loads overlays url ctx in
  fillStyle ctx' = fillStyle ctx /\ globalAlpha ctx' = globalAlpha ctx
  /\ transform ctx' = [] /\ saved ctx' = saved ctx
  /\ exists more, painted ctx' = (painted ctx ++ more)%list.
Proof.
  intros Ht ctx'. subst ctx'. unfold drawComposition.
  rewrite (drawAssets_effect loads (backgroundAssets overlays) ctx Ht).
  set (c1 := mkCtx _ _ _ _ _).
  assert (H1 : exists c2,
             (if Js.truthy url
              then match url with
                   | Some u => drawImage loads u zazuX zazuY zazuSize zazuSize 0 1 c1
                   | None => c1
                   end
              else c1) = c2
             /\ fillStyle c2 = fillStyle ctx /\ globalAlpha c2 = globalAlpha ctx
             /\ transform c2 = [] /\ saved c2 = saved ctx
             /\ exists more, painted c2 = (painted ctx ++ more)%list).
  { eexists. split; [reflexivity|].
    destruct (Js.truthy url); [destruct url as [u|]|];
      try rewrite drawImage_effect; subst c1; simpl;
      repeat split; eexists; rewrite <- ?app_assoc; reflexivity. }
  destruct H1 as (c2 & -> & F & G & T & S & more & P).
  rewrite (drawAssets_effect loads (foregroundAssets overlays) c2 T). simpl.
  repeat split; try assumption.
  rewrite P. eexists. rewrite <- app_assoc. reflexivity.
Qed.

End Robustness.

(** X14. Flattening never stops on an image that fails to load: the result
    is the one of the overlay set without the overlays whose image fails.
    It always starts from the white canvas, never erases what is painted,
    and hands the context back with no transform, no saved state, full
    alpha and the white fill style. *)
Theorem flatten_skips_failed_images (loads : string -> bool)
    (overlays : list Overlay.t) (url : option string) :
  handleDownload loads (filter (fun o => loads (Overlay.src o)) overlays) url
  = handleDownload loads overlays url
  /\ (exists more,
        painted (handleDownload loads overlays url)
        = FillRect "#ffffff" 0 0 canvas_width canvas_height :: more)
  /\ transform (handleDownload loads overlays url) = []
  /\ saved (handleDownload loads overlays url) = []
  /\ (globalAlpha (handleDownload loads overlays url) = 1)%Q
  /\ fillStyle (handleDownload loads overlays url) = "#ffffff".
Proof.
  split.
  - unfold handleDownload, drawComposition, backgroundAssets, foregroundAssets.
    now rewrite !drawAssets_without_failed.
  - unfold handleDownload.
    destruct (drawComposition_frame loads overlays url
                (Ctx.fillRect 0 0 canvas_width canvas_height
                   (Ctx.setFillStyle "#ffffff" Ctx.fresh)))
      as (F & G & T & S & more & P); [reflexivity|].
    rewrite F, G, T, S, P. simpl. repeat split. now exists more.
Qed.

(** ** The pointer *)

Lemma pointerMove_history (rect : option Rect.t) (e : MouseEvent)
    (d : DragState) (s : AppState) :
  history (snd (pointerMove rect e (d, s))) = history s
  /\ historyIndex (snd (pointerMove rect e (d, s))) = historyIndex s.
Proof.
  unfold pointerMove.
  destruct (handleMouseMove (foregroundAssets (assetOverlays s)) rect e d)
    as [d' [[id u]|]]; split; reflexivity.
Qed.

(** X15. A pointer move does nothing at all, to the component and to the
    page, when no drag or resize is active, when the container is not
    mounted, or when the overlay held is no longer among the overlays of
    the component; in particular after the pointer was released.  No
    pointer move ever touches the history. *)
Theorem pointer_move_inert (rect : option Rect.t) (e : MouseEvent)
    (d : DragState) (s : AppState) :
  (Js.truthy (dragging d) = false -> Js.truthy (resizing d) = false ->
   pointerMove rect e (d, s) = (d, s))
  /\ pointerMove None e (d, s) = (d, s)
  /\ (find (isTarget d) (foregroundAssets (assetOverlays s)) = None ->
      pointerMove rect e (d, s) = (d, s))
  /\ pointerMove rect e (pointerUp (d, s)) = pointerUp (d, s)
  /\ history (snd (pointerMove rect e (d, s))) = history s
  /\ historyIndex (snd (pointerMove rect e (d, s))) = historyIndex s.
Proof.
  split; [|split; [|split; [|split; [|apply pointerMove_history]]]].
  - intros H1 H2. unfold pointerMove, handleMouseMove. now rewrite H1, H2.
  - unfold pointerMove, handleMouseMove.
    now destruct (negb (Js.truthy (dragging d))
                  && negb (Js.truthy (resizing d))).
  - intro H. unfold pointerMove, handleMouseMove. fold (isTarget d).
    destruct (negb (Js.truthy (dragging d))
              && negb (Js.truthy (resizing d))); [reflexivity|].
    destruct rect; [|reflexivity]. now rewrite H.
  - reflexivity.
Qed.

(** X16. A drag step moves the overlay held by exactly the distance the
    pointer has travelled since the last step, as long as that keeps it
    inside the container; it stops at 0 and at [rect.width - width] on an
    overlay that fits.  The anchor of the next step is the pointer. *)
Theorem drag_follows_pointer (rect : Rect.t) (e : MouseEvent) (d : DragState)
    (s : AppState) (o : Overlay.t) :
  find (isTarget d) (foregroundAssets (assetOverlays s)) = Some o ->
  Js.truthy (dragging d) = true ->
  let deltaX := (clientX e - Rect.left rect - Point.x (dragStart d))%Q in
  let deltaY := (clientY e - Rect.top rect - Point.y (dragStart d))%Q in
  let high := (Rect.width rect - Overlay.width o)%Q in
  let after := pointerMove (Some rect) e (d, s) in
  exists o' : Overlay.t,
    find (isTarget d) (foregroundAssets (assetOverlays (snd after))) = Some o'
    /\ dragStart (fst after)
       = Point.mk (clientX e - Rect.left rect) (clientY e - Rect.top rect)
    /\ (0 <= Overlay.x o + deltaX <= high ->
        Overlay.x o' == Overlay.x o + deltaX)%Q
    /\ (0 <= Overlay.y o + deltaY <= Rect.height rect - Overlay.height o ->
        Overlay.y o' == Overlay.y o + deltaY)%Q
    /\ (Overlay.x o + deltaX <= 0 -> 0 <= high -> Overlay.x o' == 0)%Q
    /\ (high <= Overlay.x o + deltaX -> 0 <= high -> Overlay.x o' == high)%Q.
Proof.
  intros Hfind Hd deltaX deltaY high after. subst after.
  unfold pointerMove, handleMouseMove. rewrite Hd. simpl negb. cbn [andb].
  fold (isTarget d). rewrite Hfind. cbn [fst snd].
  eexists. split; [apply updated_target; exact Hfind|].
  split; [reflexivity|].
  cbn [Partial.spread Partial.pick Partial.x Partial.y Overlay.x Overlay.y].
  unfold Js.max, Js.min. subst deltaX deltaY high.
  repeat split; intros.
  - rewrite Q.min_r by lra. rewrite Q.max_r by lra. reflexivity.
  - rewrite Q.min_r by lra. rewrite Q.max_r by lra. reflexivity.
  - rewrite Q.max_l; [reflexivity|].
    apply Q.min_le_iff. right. lra.
  - rewrite Q.min_l by lra. rewrite Q.max_r by lra. reflexivity.
Qed.

Lemma drag_follows_pointer_witness :
  exists o' : Overlay.t,
    find (isTarget (fst Sample.hatHeld))
         (foregroundAssets
            (assetOverlays
               (snd (pointerMove (Some Sample.container) (mkMouse 90 75)
                                 Sample.hatHeld))))
    = Some o'
    /\ (Overlay.x o' == 80)%Q /\ (Overlay.y o' == 65)%Q.
Proof.
  destruct (drag_follows_pointer Sample.container (mkMouse 90 75)
              (fst Sample.hatHeld) (snd Sample.hatHeld) Case.hat)
    as (o' & Hfind & _ & Hx & Hy & _).
  - reflexivity.
  - reflexivity.
  - exists o'. split; [exact Hfind|]. split.
    + rewrite Hx; [reflexivity|]. vm_compute. split; discriminate.
    + rewrite Hy; [reflexivity|]. vm_compute. split; discriminate.
Defined.

(** ** The click on the image *)

Lemma round_between (p : Q) (n : Z) :
  (0 <= p)%Q -> (p <= inject_Z n)%Q -> 0 <= Qfloor (p + (1 # 2)) <= n.
Proof.
  intros H0 Hn. split.
  - change 0 with (Qfloor 0). apply Qfloor_resp_le. lra.
  - assert (H : (inject_Z (Qfloor (p + (1 # 2))) < inject_Z (n + 1))%Q).
    { apply Qle_lt_trans with (p + (1 # 2))%Q; [apply Qfloor_le|].
      rewrite inject_Z_plus. change (inject_Z 1) with 1%Q. lra. }
    rewrite <- Zlt_Qlt in H. lia.
Qed.

Lemma scaled_between (a : Q) (n w : Z) :
  0 < w -> 0 <= n -> (0 <= a)%Q -> (a <= inject_Z w)%Q ->
  (0 <= a * (inject_Z n / inject_Z w))%Q
  /\ (a * (inject_Z n / inject_Z w) <= inject_Z n)%Q.
Proof.
  intros Hw Hn Ha Haw.
  assert (Hw' : (0 < inject_Z w)%Q)
    by (change 0%Q with (inject_Z 0); now rewrite <- Zlt_Qlt).
  assert (Hn' : (0 <= inject_Z n)%Q)
    by (change 0%Q with (inject_Z 0); now rewrite <- Zle_Qle).
  assert (Hq : (0 <= inject_Z n / inject_Z w)%Q).
  { apply Qle_shift_div_l; [exact Hw' | lra]. }
  split.
  - now apply Qmult_le_0_compat.
  - apply Qle_trans with (inject_Z w * (inject_Z n / inject_Z w))%Q.
    + now apply Qmult_le_compat_r.
    + rewrite Qmult_div_r; [apply Qle_refl | lra].
Qed.

(** X17. A click inside the rendered image, on an image rendered at a
    positive size, gives a hotspot at whole pixel coordinates inside the
    picture: between 0 and its natural width, and between 0 and its
    natural height.  The click sets the hotspot on the retouch tab and
    does nothing on any other tab. *)
Theorem click_lands_in_picture (img : ImageBox) (containerRect : option Rect.t)
    (e : MouseEvent) (s : AppState) :
  0 < offsetWidth img -> 0 < offsetHeight img ->
  0 <= naturalWidth img -> 0 <= naturalHeight img ->
  (Rect.left (imgRect img) <= clientX e)%Q ->
  (clientX e <= Rect.left (imgRect img) + inject_Z (offsetWidth img))%Q ->
  (Rect.top (imgRect img) <= clientY e)%Q ->
  (clientY e <= Rect.top (imgRect img) + inject_Z (offsetHeight img))%Q ->
  let edit := fst (clickPoints img containerRect e) in
  (exists col row : Z,
     edit = Point.mk (inject_Z col) (inject_Z row)
     /\ 0 <= col <= naturalWidth img /\ 0 <= row <= naturalHeight img)
  /\ (activeTab s = retouch ->
      editHotspot (handleImageClickAt img containerRect e s) = Some edit
      /\ history (handleImageClickAt img containerRect e s) = history s
      /\ assetOverlays (handleImageClickAt img containerRect e s)
         = assetOverlays s)
  /\ (activeTab s <> retouch -> handleImageClickAt img containerRect e s = s).
Proof.
  intros Hw Hh Hnw Hnh Hx0 Hx1 Hy0 Hy1 edit. subst edit.
  unfold handleImageClickAt, clickPoints, round. cbn [fst].
  split; [|split].
  - eexists. eexists. split; [reflexivity|]. split.
    + destruct (scaled_between (clientX e - Rect.left (imgRect img))
                  (naturalWidth img) (offsetWidth img)) as [A B];
        try assumption; try lra.
      now apply round_between.
    + destruct (scaled_between (clientY e - Rect.top (imgRect img))
                  (naturalHeight img) (offsetHeight img)) as [A B];
        try assumption; try lra.
      now apply round_between.
  - intro Ht. unfold handleImageClick. rewrite Ht. repeat split.
  - intro Ht. unfold handleImageClick.
    destruct (activeTab s); try reflexivity. now elim Ht.
Qed.

Lemma click_lands_in_picture_witness :
  fst (clickPoints Case.box (Some Sample.container) (mkMouse 200 210))
  = Point.mk 400 300
  /\ editHotspot
       (handleImageClickAt Case.box (Some Sample.container) (mkMouse 200 210)
                           Case.ready)
     = Some (Point.mk 400 300).
Proof.
  destruct (click_lands_in_picture Case.box (Some Sample.container)
              (mkMouse 200 210) Case.ready) as (_ & H & _);
    try (vm_compute; first [reflexivity | discriminate]).
  split; [reflexivity|]. destruct H as [H _]; [reflexivity|]. exact H.
Defined.

(** ** The asset browser and the stacking order *)

(** X18. Every asset the browser lists under a category carries the key of
    that category, and selecting it with an image loaded adds an overlay
    whose stacking order is 1 for backgrounds, 1000 for eyes and hats, 500
    for characters, and 1 for extras: the browser files its accessories
    under [extras], which the selection handler does not know.  All but
    the backgrounds are placed at (50,50) with size 100 by 100. *)
Theorem catalogue_stacking (c : AssetBrowser.Category) (asset : Asset.t)
    (now : Z) (token : string) (s : AppState) :
  In asset (AssetBrowser.loadAssets c) ->
  currentImage s <> None ->
  Asset.category asset = AssetBrowser.key c
  /\ exists o : Overlay.t,
       assetOverlays (handleAssetSelect asset now token s)
       = (assetOverlays s ++ [o])%list
       /\ Overlay.src o = Asset.path asset
       /\ Overlay.zIndex o
          = match c with
            | AssetBrowser.backgrounds => 1
            | AssetBrowser.eyes | AssetBrowser.hats => 1000
            | AssetBrowser.characters => 500
            | AssetBrowser.extras => 1
            end
       /\ match c with
          | AssetBrowser.backgrounds =>
              Overlay.x o = 0%Q /\ Overlay.y o = 0%Q
              /\ Overlay.width o = canvas_width
              /\ Overlay.height o = canvas_height
          | _ =>
              Overlay.x o = 50%Q /\ Overlay.y o = 50%Q
              /\ Overlay.width o = 100%Q /\ Overlay.height o = 100%Q
          end.
Proof.
  intros Hin Himg.
  assert (Hcat : Asset.category asset = AssetBrowser.key c).
  { destruct c; simpl in Hin;
      repeat (destruct Hin as [<- | Hin]; [reflexivity|]); destruct Hin. }
  split; [exact Hcat|].
  unfold handleAssetSelect.
  destruct (currentImage s) as [image|]; [|congruence].
  eexists. split; [reflexivity|]. simpl. rewrite Hcat.
  destruct c; simpl; repeat split.
Qed.

Lemma catalogue_stacking_witness :
  exists o : Overlay.t,
    assetOverlays
      (handleAssetSelect (Asset.mk "Gold Chain" "/assets/extras/goldchain.png" "extras")
                         4 "ddddddddd" Sample.loaded)
    = [o]
    /\ Overlay.zIndex o = 1.
Proof.
  destruct (catalogue_stacking AssetBrowser.extras
              (Asset.mk "Gold Chain" "/assets/extras/goldchain.png" "extras")
              4 "ddddddddd" Sample.loaded)
    as (_ & o & H1 & _ & H3 & _).
  - left. reflexivity.
  - discriminate.
  - exists o. split; [exact H1 | exact H3].
Defined.

(** ** The default image *)

(** X19. Loading the default image writes the history only when the
    response is OK and its body can be read: the history is then the
    single file [zazu.png] of type [image/png] with the cursor on it, and
    the editor is marked started.  A rejected fetch, a response that is
    not OK (reported with its status) and an unreadable body leave the
    history, the cursor and the started flag as they were and set the
    error.  In every case the busy flag ends cleared and the overlays are
    untouched. *)
Theorem default_load_outcomes (outcome : FetchOutcome) (s : AppState) :
  let s' := loadZazuImage_resume outcome (loadZazuImage s) in
  isLoading s' = false /\ assetOverlays s' = assetOverlays s
  /\ match outcome with
     | FetchResponse true _ _ (inr bytes) =>
         history s' = [mkFile bytes "zazu.png" "image/png"]
         /\ historyIndex s' = 0 /\ hasStarted s' = true /\ error s' = None
         /\ canUndo s' = false /\ canRedo s' = false
     | FetchResponse false status statusText _ =>
         history s' = history s /\ historyIndex s' = historyIndex s
         /\ hasStarted s' = hasStarted s
         /\ error s'
            = Some ("Failed to load Zazu image: " ++ Js.show status ++ " "
                    ++ statusText)
     | FetchRejected err | FetchResponse true _ _ (inl err) =>
         history s' = history s /\ historyIndex s' = historyIndex s
         /\ hasStarted s' = hasStarted s
         /\ error s' = Some (Js.message_or "Failed to load Zazu image" err)
     end.
Proof.
  destruct outcome as [err | [|] status statusText [err | bytes]];
    repeat split.
Qed.

(** ** Resizing *)

(** X20. A resize step adds the distance the pointer has travelled since
    the last step to the width and to the height of the overlay held, each
    with a floor of 20 and with no upper limit, and leaves its position
    alone. *)
Theorem resize_follows_pointer (rect : Rect.t) (e : MouseEvent)
    (d : DragState) (s : AppState) (o : Overlay.t) :
  find (isTarget d) (foregroundAssets (assetOverlays s)) = Some o ->
  Js.truthy (dragging d) = false ->
  Js.truthy (resizing d) = true ->
  let deltaX := (clientX e - Rect.left rect - Point.x (dragStart d))%Q in
  let deltaY := (clientY e - Rect.top rect - Point.y (dragStart d))%Q in
  let after := pointerMove (Some rect) e (d, s) in
  exists o' : Overlay.t,
    find (isTarget d) (foregroundAssets (assetOverlays (snd after))) = Some o'
    /\ dragStart (fst after)
       = Point.mk (clientX e - Rect.left rect) (clientY e - Rect.top rect)
    /\ Overlay.x o' = Overlay.x o /\ Overlay.y o' = Overlay.y o
    /\ (20 <= Overlay.width o + deltaX ->
        Overlay.width o' == Overlay.width o + deltaX)%Q
    /\ (Overlay.width o + deltaX <= 20 -> Overlay.width o' == 20)%Q
    /\ (20 <= Overlay.height o + deltaY ->
        Overlay.height o' == Overlay.height o + deltaY)%Q
    /\ (Overlay.height o + deltaY <= 20 -> Overlay.height o' == 20)%Q.
Proof.
  intros Hfind Hd Hr deltaX deltaY after. subst after.
  unfold pointerMove, handleMouseMove. rewrite Hd, Hr. simpl negb. cbn [andb].
  fold (isTarget d). rewrite Hfind. cbn [fst snd].
  eexists. split; [apply updated_target; exact Hfind|].
  split; [reflexivity|].
  cbn [Partial.spread Partial.pick Partial.x Partial.y Partial.width
       Partial.height Overlay.x Overlay.y Overlay.width Overlay.height].
  unfold Js.max. subst deltaX deltaY.
  split; [reflexivity|]. split; [reflexivity|].
  repeat split; intros.
  - rewrite Q.max_r by lra. reflexivity.
  - rewrite Q.max_l by lra. reflexivity.
  - rewrite Q.max_r by lra. reflexivity.
  - rewrite Q.max_l by lra. reflexivity.
Qed.

Lemma resize_follows_pointer_witness :
  exists o' : Overlay.t,
    find (isTarget (mkDrag None (Point.mk 140 140) (Some Sample.hatId)))
         (foregroundAssets
            (assetOverlays
               (snd (pointerMove (Some Sample.container) (mkMouse 500 140)
                       (mkDrag None (Point.mk 140 140) (Some Sample.hatId),
                        Sample.withHat)))))
    = Some o'
    /\ (Overlay.width o' == 460)%Q.
Proof.
  destruct (resize_follows_pointer Sample.container (mkMouse 500 140)
              (mkDrag None (Point.mk 140 140) (Some Sample.hatId))
              Sample.withHat Case.hat)
    as (o' & Hfind & _ & _ & _ & Hw & _).
  - reflexivity.
  - reflexivity.
  - reflexivity.
  - exists o'. split; [exact Hfind|].
    rewrite Hw; [reflexivity|]. vm_compute. discriminate.
Defined.
